(* ===== verification/_CoqProject ===== *)
-Q . S2P
Prelude.v
JsRuntime.v
MoneyFormat.v
CartTotal.v
TieredPricing.v
DrawerLock.v
DrawerPrices.v
WcpWait.v
ThemeEvents.v
DrawerSystem.v
