(* ===== verification/Prelude.v ===== *)
(** * A verification development for the Shopify storefront cart scripts

    The repository ships three browser scripts under [src/assets/]:

    - [cart-total-updater.js]: recomputes the cart footer total from the
      [data-discounted-price] attributes of the line items
      ([updateCartTotal]), formats it with a Shopify money format string
      ([formatMoney] with its inner [formatWithDelimiters]) and keeps it up
      to date with a [MutationObserver] that is re-created on every
      [theme:cart:change] and [cartUpdateComplete] event
      ([initializeCartTotalUpdater]).
    - [cart-tiered-pricing.js]: a second, independent money formatter
      ([formatMoney]) and one [MutationObserver] per line-item total that
      restores the formatted tiered price whenever another renderer rewrites
      the element ([preserveTieredPricing]).
    - [custom.js]: example theme listeners (logging only) and the cart drawer
      price updater: a set [interactingInputs] of quantity-input keys that
      are being edited (focusin / input add a key, focusout removes it after
      500 ms), a retry loop waiting for the wholesale pricing app
      ([waitForWCP]) and [applyPriceUpdates], which writes formatted prices
      and, when the input is not being edited, quantities into the drawer.

    The components interact only through the page: the DOM elements they
    read and write, the theme events they listen to, and timers. In the
    model, the drawer updater is the one chain of files that call each
    other: [WcpWait] schedules the carts that [DrawerPrices] applies, and
    [DrawerPrices] writes quantities through the lock of [DrawerLock].

    ** Files of the development (in dependency order)

    - [Prelude.v] (this file): notation scope [cart_scope], character
      classes of JavaScript regular expressions, decimal printing and parsing
      of naturals, infinite sequences of steps ([infseq]), the hint
      database [cart] and shared lemmas on strings.
    - [JsRuntime.v]: the ECMAScript built-ins the scripts call, on the
      values they call them with: [Number.prototype.toFixed] on a cent amount
      divided by 100 ([to_fixed_cents]), [parseFloat] ([parse_float_cents]),
      [parseInt] ([parse_int]), [String.prototype.split], [replace] with a
      string pattern ([replace_first]) and [trim] ([js_trim]).
    - [MoneyFormat.v], Module [TotalFormat]: [formatMoney] and
      [formatWithDelimiters] of [cart-total-updater.js] (lines 31-73): the
      thousands-separator regular expression as a literal scan
      ([add_thousands]), the placeholder regular expression
      ([match_placeholder]), the four placeholder cases and the TypeError
      raised when the format has no placeholder.
    - [CartTotal.v], Module [CartTotal]: the page as a record (footer, line
      items, money format, observers), [updateCartTotal] (lines 7-29), the
      observer callback and the event listeners (lines 75-104) as a step
      function on events. The browser's [innerHTML] round trip is the
      Section variable [serialize].
    - [TieredPricing.v], Module [Tiered]: [formatMoney] of
      [cart-tiered-pricing.js], the restore callback, [preserveTieredPricing]
      and the listener that re-runs it. The text the browser shows after an
      [innerHTML] write is the Section variable [html_text].
    - [DrawerLock.v], Module [DrawerLock]: [interactingInputs] (custom.js
      line 82) with the focus and input listeners (lines 204-230) and their
      500 ms timers as a step function on UI events, and the quantity write
      of [applyPriceUpdates] (lines 161-168) on a [gmap] of inputs.
    - [DrawerPrices.v], Module [DrawerPrices]: the drawer DOM as a list of
      elements, the CSS selectors the code builds, [updatePrice] (lines
      186-197) and [applyPriceUpdates] (lines 132-181).
      [Intl.NumberFormat] is the Section variable [currency_format].
    - [WcpWait.v], Module [WcpWait]: [WCP_CONFIG], [isWholesaleCustomer],
      the [checkWCP] retry loop of [waitForWCP] (lines 75-127) and
      [updateCartDrawerPrices] (lines 87-98), with [window.wcp_data] over
      time as the Section variable [wcp_data_at]; the pending cart updates
      and the order they run in; the registration of the listeners and
      its repetition on [shopify:section:load] (lines 202-268).
    - [ThemeEvents.v], Module [ThemeEvents]: the example listeners of the
      first IIFE of [custom.js] (lines 12-68) in ExtLib's writer monad over
      the error monad ([tell] is [console.log], [raise] the TypeError on a
      [null] detail), run over a sequence of events.
    - [DrawerSystem.v], Module [DrawerSystem]: the drawer as one timed
      system: the lock, the drawer and the queue of pending updates, with
      the user's focus, blur and typing, cart events and the passing of
      time as events; the passing of time runs the due updates in order
      ([run_due]), each with the lock as it is at its due time.

    ** What the theorems show (grouped by component)

    - Money format: the regular-expression scan inserts a separator exactly
      between groups of three digits counted from the right (equivalence
      with a reference grouping); the formatted amount for the default
      format and for each placeholder; the two-decimal outputs parse back to
      the cent amount; [formatMoney] throws exactly when the format has no
      placeholder.
    - Cart total: the total is the sum of the prices of the selected line
      items; the update throws exactly when the footer exists and either the
      global [theme] is missing (a ReferenceError) or the format has no
      placeholder;
      the write/observe loop stops after one write when the formatted text
      survives [innerHTML] and runs forever otherwise; observers accumulate
      with every cart event.
    - Tiered pricing: the output of its formatter, the placeholder it fails
      to replace, convergence or divergence of the restore observer, and the
      accumulation of its observers.
    - Drawer lock: a focused or locked input is never overwritten; the
      quantity write is exact; a key stays locked while its input is not
      blurred; a blur releases it after 500 ms (liveness, by an invariant
      carried to the due time of the timer); the release timer is never
      cancelled, so a key re-focused and typed into within 500 ms of an
      earlier blur is released by that blur's timer.
    - Drawer prices: [applyPriceUpdates] refines an element-wise
      specification (each element shows the price of the last matching
      write); from it, what the footer and the line totals show, the stale
      original price, and idempotence for carts with distinct keys.
    - Waiting for the app: [waitForWCP] always resolves, at the first poll
      that sees the app, between 800 and 1800 ms after the call; updates are
      applied in event order for retail pages and once the app has loaded;
      on a wholesale page, an update made just before the app loads is
      applied after any newer one made before the next poll;
      every section reload adds one more copy of the cart listener.
    - Example listeners: the console lines they write and the errors they
      report over any sequence of events.
    - The composed drawer: an input the user keeps editing holds what
      they typed whatever carts arrive (safety, by an invariant of the lock
      carried through the timer loop, which runs exactly the updates due).

    ** Modelling choices, bounds and fuel

    - JavaScript numbers: the scripts only handle cent amounts, which the
      Liquid templates write as integer strings. A number is modelled as an
      integer [Z] of cents, [option Z] where [NaN] can occur ([None] is
      [NaN]). Double arithmetic is exact on integers of magnitude at most
      2^53, and the scripts divide the cents by 100 before [toFixed]: the
      quotient rounds to the nearest two-decimal string only while its
      error stays below half a cent, which holds for cent amounts of
      magnitude below about 2^52 (far above any cart total); [parseFloat] is
      modelled on integer strings (an optional fraction of zeros is
      accepted), strings with a non-zero fraction or an exponent are outside
      the model and read as [NaN].
    - Strings are Stdlib [string]s of 8-bit characters: they stand for
      JavaScript strings whose code units are in U+0000 to U+00FF, which
      covers every literal of the scripts. The whitespace class [\s] is
      restricted accordingly (tab, LF, VT, FF, CR, space, no-break space).
    - Decimal printing [dec_N] recurses with fuel [1 + N.size n] (the
      number of binary digits bounds the number of decimal digits);
      [dec_N_step] shows the fuel is always enough.
    - The [checkWCP] loop runs with fuel [maxRetries + 1] = 6 calls: the
      retry counter starts at 0 and the loop stops at the latest when it
      reaches 5, and [wait_for_wcp_spec] shows the fuel never runs out.
    - The timer loop [run_due] of [DrawerSystem] runs with fuel one more
      than the length of the queue: each round removes one update, and
      [run_due_spec] shows it ends with exactly the later updates queued.
      Lock timers due at the same time as a cart update run first.
    - Time is a natural number of milliseconds. Timers that fall due
      together run in the order they were set, as the HTML timer queue
      runs them.
    - Observer loops that do not terminate are infinite sequences of steps
      ([infseq]), stated as such, not as the absence of a result.
    - Browser behaviour the scripts rely on but do not implement
      ([innerHTML] serialisation, [Intl.NumberFormat], the value of
      [window.wcp_data] over time) are Section variables, so every theorem
      holds for every browser behaviour; the witnesses instantiate them.

    ** Not modelled

    - Console output is a list of the values logged; how the browser
      prints an object is not modelled. A listener that throws is recorded
      with an empty log, which is faithful because every example listener
      throws before it logs.
    - The [fetch('/cart.js')] round trip: its response is one more cart
      event with its arrival time.
    - CSS selectors beyond the attribute, class and descendant forms the
      code builds; class tokens are separated by spaces only.
    - The drawer is a flat list of elements: writing [textContent] replaces
      the element's text but does not remove its descendant elements from
      the list, which is faithful for the price elements the code writes,
      since they hold text only. *)

From Stdlib Require Import String Ascii ZArith NArith List Bool Lia.
Import ListNotations.

Declare Scope cart_scope.
Delimit Scope cart_scope with cart.

(** Option binding, used for code paths that can throw or yield NaN. *)
Notation "x <- c1 ;; c2" := (match c1 with Some x => c2 | None => None end)
  (at level 60, c1 at next level, right associativity) : cart_scope.

(** One-character strings. *)
Notation "[: c :]" := (String c EmptyString) (format "[: c :]") : cart_scope.

Open Scope string_scope.
Open Scope cart_scope.

Create HintDb cart discriminated.
Create Rewrite HintDb cart_str.

(** ** Character classes of JavaScript regular expressions *)

(** [\d]: the ASCII digits. *)
Definition is_digit (c : ascii) : bool :=
  let n := N_of_ascii c in (48 <=? n)%N && (n <=? 57)%N.

(** [\w]: letters, digits and underscore. *)
Definition is_word_char (c : ascii) : bool :=
  let n := N_of_ascii c in
  is_digit c || ((65 <=? n)%N && (n <=? 90)%N) || ((97 <=? n)%N && (n <=? 122)%N)
  || (n =? 95)%N.

(** [\s] on code units U+0000 to U+00FF: tab, LF, VT, FF, CR, space and
    no-break space (ECMA-262 WhiteSpace and LineTerminator). *)
Definition is_space (c : ascii) : bool :=
  let n := N_of_ascii c in
  ((9 <=? n)%N && (n <=? 13)%N) || (n =? 32)%N || (n =? 160)%N.

(** Case analysis on the 256 characters, for facts about the classes that
    are decided by evaluation. *)
Ltac ascii_cases c := destruct c as [[] [] [] [] [] [] [] []].

Lemma digit_not_space (c : ascii) : is_digit c = true -> is_space c = false.
Proof. ascii_cases c; intros H; reflexivity || discriminate H. Qed.

Lemma digit_not_sign (c : ascii) :
  is_digit c = true -> Ascii.eqb c "-"%char = false /\ Ascii.eqb c "+"%char = false.
Proof. ascii_cases c; intros H; split; reflexivity || discriminate H. Qed.

Lemma digit_not_dot (c : ascii) : is_digit c = true -> Ascii.eqb c "."%char = false.
Proof. ascii_cases c; intros H; reflexivity || discriminate H. Qed.

#[export] Hint Resolve digit_not_space digit_not_dot : cart.

(** Equalities between [N] expressions built from [+], [*], and division
    and remainder by constants: move to [Z], name quotients and remainders,
    and let [lia] solve the linear problem. *)
Ltac n_divmod :=
  apply N2Z.inj;
  repeat (rewrite N2Z.inj_div || rewrite N2Z.inj_mod || rewrite N2Z.inj_add
          || rewrite N2Z.inj_mul);
  cbn [Z.of_N];
  repeat match goal with |- context [Z.of_N ?x] =>
    lazymatch goal with
    | _ : (0 <= Z.of_N x)%Z |- _ => fail
    | _ => pose proof (N2Z.is_nonneg x)
    end end;
  Z.div_mod_to_equations; lia.

(** ** Decimal digits *)

Definition digit_char (d : N) : ascii := ascii_of_N (48 + d).
Definition digit_val (c : ascii) : N := (N_of_ascii c - 48)%N.

(** Decimal notation of a natural number, most significant digit first. *)
Fixpoint dec_fuel (fuel : nat) (n : N) : string :=
  match fuel with
  | O => EmptyString
  | S f => if (n <? 10)%N then [: digit_char n :]
           else dec_fuel f (n / 10) ++ [: digit_char (n mod 10) :]
  end.

Definition dec_N (n : N) : string := dec_fuel (S (N.to_nat (N.size n))) n.

(** Two and three digit fields, zero padded. *)
Definition pad2 (m : N) : string :=
  String (digit_char (m / 10)) [: digit_char (m mod 10) :].
Definition pad3 (m : N) : string :=
  String (digit_char (m / 100)) (pad2 (m mod 100)).

(** Value of a string of digits, read left to right from [acc]. *)
Fixpoint digits_acc (acc : N) (s : string) : option N :=
  match s with
  | EmptyString => Some acc
  | String c r => if is_digit c then digits_acc (acc * 10 + digit_val c) r else None
  end.

Definition digits_value (s : string) : option N :=
  match s with EmptyString => None | _ => digits_acc 0 s end.

Fixpoint all_digits (s : string) : bool :=
  match s with
  | EmptyString => true
  | String c r => is_digit c && all_digits r
  end.

(** ** Generic lemmas on strings *)

Lemma str_app_assoc (a b c : string) : (a ++ b) ++ c = a ++ (b ++ c).
Proof. induction a as [|x a IH]; simpl; [reflexivity | now rewrite IH]. Qed.

Lemma str_app_nil_r (a : string) : a ++ "" = a.
Proof. induction a as [|x a IH]; simpl; [reflexivity | now rewrite IH]. Qed.

Lemma str_length_app (a b : string) : String.length (a ++ b) = String.length a + String.length b.
Proof. induction a as [|x a IH]; simpl; [reflexivity | now rewrite IH]. Qed.

Lemma str_app_cons (c : ascii) (a b : string) : String c a ++ b = String c (a ++ b).
Proof. reflexivity. Qed.

#[export] Hint Rewrite str_app_assoc str_app_nil_r str_length_app : cart_str.

Lemma all_digits_app (a b : string) : all_digits (a ++ b) = all_digits a && all_digits b.
Proof. induction a as [|x a IH]; simpl; [reflexivity | now rewrite IH, andb_assoc]. Qed.

#[export] Hint Rewrite all_digits_app : cart_str.

(** ** Digits: printing and reading back *)

Lemma digit_char_ok (d : N) : (d < 10)%N ->
  is_digit (digit_char d) = true /\ digit_val (digit_char d) = d.
Proof.
  intros Hd. unfold is_digit, digit_val, digit_char.
  rewrite N_ascii_embedding by lia.
  split; [apply andb_true_intro; split; apply N.leb_le|]; lia.
Qed.

Lemma digit_char_digit (d : N) : (d < 10)%N -> is_digit (digit_char d) = true.
Proof. intros Hd. now apply digit_char_ok. Qed.

Lemma digit_char_val (d : N) : (d < 10)%N -> digit_val (digit_char d) = d.
Proof. intros Hd. now apply digit_char_ok. Qed.

Lemma N_mod_10_lt (n : N) : (n mod 10 < 10)%N.
Proof. apply N.mod_lt. lia. Qed.

#[export] Hint Resolve digit_char_digit N_mod_10_lt : cart.
#[export] Hint Rewrite digit_char_val using lia : cart_str.

Lemma dec_fuel_enough f g n :
  (n < 10 ^ N.of_nat f)%N -> (n < 10 ^ N.of_nat g)%N ->
  dec_fuel (S f) n = dec_fuel (S g) n.
Proof.
  revert g n; induction f as [|f IH]; intros g n Hf Hg.
  - simpl in Hf. assert (n = 0%N) as -> by lia. reflexivity.
  - cbn [dec_fuel]. destruct (n <? 10)%N eqn:E; [reflexivity|]. apply N.ltb_ge in E.
    destruct g as [|g]; [simpl in Hg; lia|]. cbn [dec_fuel] in *. f_equal.
    rewrite Nat2N.inj_succ, N.pow_succ_r' in Hf, Hg.
    apply IH; apply N.Div0.div_lt_upper_bound; lia.
Qed.

Lemma dec_size_bound n : (n < 10 ^ N.of_nat (N.to_nat (N.size n)))%N.
Proof.
  rewrite N2Nat.id. eapply N.lt_le_trans; [apply N.size_gt|].
  apply N.pow_le_mono_l. lia.
Qed.

Lemma dec_N_small n : (n < 10)%N -> dec_N n = [: digit_char n :].
Proof.
  intros Hn. unfold dec_N. cbn [dec_fuel].
  destruct (n <? 10)%N eqn:E; [reflexivity | apply N.ltb_ge in E; lia].
Qed.

(** The fuel of [dec_N] is always enough: the printing recursion unfolds. *)
Lemma dec_N_step n :
  (10 <= n)%N -> dec_N n = dec_N (n / 10) ++ [: digit_char (n mod 10) :].
Proof.
  intros Hn. unfold dec_N at 1. cbn [dec_fuel].
  destruct (n <? 10)%N eqn:E; [apply N.ltb_lt in E; lia|]. f_equal.
  pose proof (dec_size_bound n) as B.
  destruct (N.to_nat (N.size n)) as [|k] eqn:Es; [simpl in B; lia|].
  apply dec_fuel_enough; [|apply dec_size_bound].
  rewrite Nat2N.inj_succ, N.pow_succ_r' in B.
  apply N.Div0.div_lt_upper_bound; lia.
Qed.

(** Induction on decimal notation: one digit, or a shorter number and a
    last digit. *)
Lemma dec_N_ind (P : N -> Prop) :
  (forall n, (n < 10)%N -> P n) ->
  (forall n, (10 <= n)%N -> P (n / 10)%N -> P n) ->
  forall n, P n.
Proof.
  intros Hs Hb n. induction n as [n IH] using (well_founded_induction (N.lt_wf_0)).
  destruct (N.lt_ge_cases n 10) as [H|H]; [now apply Hs|].
  apply Hb; [exact H|]. apply IH. apply N.div_lt; lia.
Qed.

Lemma all_digits_dec_N n : all_digits (dec_N n) = true.
Proof.
  induction n as [n Hn|n Hn IH] using dec_N_ind.
  - rewrite dec_N_small by exact Hn. simpl. now rewrite digit_char_digit.
  - rewrite dec_N_step, all_digits_app, IH by exact Hn. simpl.
    now rewrite digit_char_digit by auto with cart.
Qed.

Lemma dec_N_nonempty n : dec_N n <> EmptyString.
Proof.
  induction n as [n Hn|n Hn IH] using dec_N_ind.
  - now rewrite dec_N_small.
  - rewrite dec_N_step by exact Hn. destruct (dec_N (n / 10)); [contradiction|discriminate].
Qed.

Lemma digits_acc_app acc a b :
  digits_acc acc (a ++ b) = (v <- digits_acc acc a ;; digits_acc v b).
Proof.
  revert acc; induction a as [|x a IH]; intros acc; simpl; [reflexivity|].
  destruct (is_digit x); [apply IH | reflexivity].
Qed.

(** Reading back the printed digits gives the number. *)
Lemma digits_acc_dec_N n : digits_acc 0 (dec_N n) = Some n.
Proof.
  induction n as [n Hn|n Hn IH] using dec_N_ind.
  - rewrite dec_N_small by exact Hn. simpl.
    rewrite digit_char_digit, digit_char_val by exact Hn. reflexivity.
  - rewrite dec_N_step, digits_acc_app, IH by exact Hn. simpl.
    rewrite digit_char_digit, digit_char_val by auto with cart.
    f_equal. pose proof (N.div_mod n 10). lia.
Qed.

Lemma digits_value_dec_N n : digits_value (dec_N n) = Some n.
Proof.
  unfold digits_value. pose proof (dec_N_nonempty n).
  destruct (dec_N n) eqn:E; [contradiction|]. rewrite <- E. apply digits_acc_dec_N.
Qed.

Lemma all_digits_pad2 m : (m < 100)%N -> all_digits (pad2 m) = true.
Proof.
  intros H. unfold pad2; simpl.
  rewrite !digit_char_digit; auto with cart. apply N.Div0.div_lt_upper_bound; lia.
Qed.

Lemma all_digits_pad3 m : (m < 1000)%N -> all_digits (pad3 m) = true.
Proof.
  intros H. unfold pad3; cbn [all_digits]. rewrite all_digits_pad2 by (apply N.mod_lt; lia).
  rewrite digit_char_digit; [reflexivity|]. apply N.Div0.div_lt_upper_bound; lia.
Qed.

#[export] Hint Resolve all_digits_dec_N dec_N_nonempty : cart.

(** ** Infinite sequences of steps

    A state from which a step relation can be iterated forever: some set of
    states contains it and every member of the set steps to a member. Used
    for the observer loops, where an infinite sequence of callbacks freezes
    the page. *)
Definition infseq {A : Type} (R : A -> A -> Prop) (a : A) : Prop :=
  exists X : A -> Prop, X a /\ (forall x, X x -> exists y, R x y /\ X y).

(** A state that steps to itself runs forever. *)
Lemma infseq_cycle {A : Type} (R : A -> A -> Prop) (a : A) : R a a -> infseq R a.
Proof. intros H. exists (fun x => x = a). split; [reflexivity|]. intros x ->. eauto. Qed.

(** An invariant that always allows one more step gives an infinite
    sequence. *)
Lemma infseq_invariant {A : Type} (R : A -> A -> Prop) (I : A -> Prop) (a : A) :
  I a -> (forall x, I x -> exists y, R x y /\ I y) -> infseq R a.
Proof. intros Ha Hstep. exists I. auto. Qed.
