(* ===== verification/JsRuntime.v ===== *)
(** * The ECMAScript built-ins called by the cart scripts

    Each definition models one built-in on the values the scripts pass to
    it: [Number.prototype.toFixed] on [cents / 100] for the precisions 0 and
    2 that appear in the code, [parseFloat] on the integer strings the theme
    writes into [data-*] attributes, [String.prototype.split] with a
    one-character separator, [String.prototype.replace] with a string
    pattern (first occurrence, [GetSubstitution] on the replacement) and
    [String.prototype.trim]. JavaScript numbers are integers of cents (see
    the header of [Prelude.v]); [None] stands for [NaN]. *)

From Stdlib Require Import String Ascii ZArith NArith List Bool Lia.
From S2P Require Import Prelude.
Import ListNotations.
Open Scope string_scope.
Open Scope cart_scope.

(** ** Number.prototype.toFixed *)

(** The precisions passed by the code: [2] (also the default of
    [formatWithDelimiters]) and [0]. *)
Inductive precision := Prec0 | Prec2.

Definition sign_str (c : Z) : string := if (c <? 0)%Z then "-" else "".

(** [(c / 100).toFixed(p)] (ECMA-262 21.1.3.3): the sign when the value is
    negative, then the integer [n] nearest to [|c| / 100 * 10^p], the larger
    one on a tie, written with [p] decimals. For [p = 2], [n = |c|]; for
    [p = 0], [n = (|c| + 50) / 100]; a negative value that rounds to zero
    keeps its sign ("-0"), as in JavaScript. *)
Definition to_fixed_cents (p : precision) (c : Z) : string :=
  let a := Z.to_N (Z.abs c) in
  match p with
  | Prec2 => sign_str c ++ dec_N (a / 100) ++ "." ++ pad2 (a mod 100)
  | Prec0 => sign_str c ++ dec_N ((a + 50) / 100)
  end.

(** [toFixed] on a number that may be [NaN]. *)
Definition to_fixed (p : precision) (x : option Z) : string :=
  match x with
  | Some c => to_fixed_cents p c
  | None => "NaN"
  end.

(** ** parseFloat *)

Fixpoint skip_spaces (s : string) : string :=
  match s with
  | String c r => if is_space c then skip_spaces r else s
  | EmptyString => EmptyString
  end.

(** The longest prefix of digits and the rest. *)
Fixpoint span_digits (s : string) : string * string :=
  match s with
  | String c r =>
      if is_digit c then let (ds, rest) := span_digits r in (String c ds, rest)
      else (EmptyString, s)
  | EmptyString => (EmptyString, EmptyString)
  end.

Fixpoint all_zeros (s : string) : bool :=
  match s with
  | String c r => Ascii.eqb c "0"%char && all_zeros r
  | EmptyString => true
  end.

(** Does the rest start with an exponent part [e[+-]digits]? *)
Definition starts_exponent (s : string) : bool :=
  match s with
  | String e r =>
      (Ascii.eqb e "e"%char || Ascii.eqb e "E"%char) &&
      match r with
      | String sg (String d _) =>
          if Ascii.eqb sg "+"%char || Ascii.eqb sg "-"%char then is_digit d else is_digit sg
      | String d EmptyString => is_digit d
      | EmptyString => false
      end
  | EmptyString => false
  end.

(** [parseFloat(s)] (ECMA-262 19.2.4): skip leading white space, read an
    optional sign and the longest decimal literal prefix. The model returns
    the integer it denotes when the literal has integer digits, a fraction
    of zeros at most and no exponent; [None] otherwise: [NaN] when there is
    no literal, and also the values outside the integer model (a non-zero
    fraction, an exponent, a literal starting with a dot, [Infinity]). *)
Definition parse_float_cents (s : string) : option Z :=
  let t := skip_spaces s in
  let (neg, u) :=
    match t with
    | String c r =>
        if Ascii.eqb c "-"%char then (true, r)
        else if Ascii.eqb c "+"%char then (false, r) else (false, t)
    | EmptyString => (false, t)
    end in
  let (ds, rest) := span_digits u in
  let (frac_ok, rest2) :=
    match rest with
    | String c r => if Ascii.eqb c "."%char then let (fs, r2) := span_digits r in (all_zeros fs, r2)
                    else (true, rest)
    | EmptyString => (true, rest)
    end in
  if frac_ok && negb (starts_exponent rest2) then
    match digits_value ds with
    | Some v => Some (if neg then (- Z.of_N v)%Z else Z.of_N v)
    | None => None
    end
  else None.

(** The attribute strings the Liquid templates write: an integer in
    decimal, with a minus sign when negative. *)
Definition int_str (c : Z) : string := sign_str c ++ dec_N (Z.to_N (Z.abs c)).

(** ** String.prototype.split with a one-character separator *)

Fixpoint split_on (sep : ascii) (s : string) : list string :=
  match s with
  | EmptyString => [EmptyString]
  | String x r =>
      if Ascii.eqb x sep then EmptyString :: split_on sep r
      else match split_on sep r with
           | h :: t => String x h :: t
           | [] => [[: x :]]
           end
  end.

(** ** String.prototype.replace with a string pattern *)

(** First occurrence of [pat] in [s]: the text before it and after it. *)
Fixpoint find_split (pat s : string) : option (string * string) :=
  if String.prefix pat s then Some (EmptyString, substring (String.length pat) (String.length s) s)
  else match s with
       | EmptyString => None
       | String c r =>
           match find_split pat r with
           | Some (b, a) => Some (String c b, a)
           | None => None
           end
       end.

(** [GetSubstitution] for a string pattern (no capture groups): [$$],
    [$&], [$`] and [$'] are expanded, every other character is copied. *)
Fixpoint get_substitution (matched before after rep : string) : string :=
  match rep with
  | String "$"%char (String "$"%char r) => String "$"%char (get_substitution matched before after r)
  | String "$"%char (String "&"%char r) => matched ++ get_substitution matched before after r
  | String "$"%char (String "`"%char r) => before ++ get_substitution matched before after r
  | String "$"%char (String "'"%char r) => after ++ get_substitution matched before after r
  | String c r => String c (get_substitution matched before after r)
  | EmptyString => EmptyString
  end.

(** [s.replace(pat, rep)]: only the first occurrence is replaced; [s] is
    returned unchanged when [pat] does not occur. *)
Definition replace_first (pat rep s : string) : string :=
  match find_split pat s with
  | Some (b, a) => b ++ get_substitution pat b a rep ++ a
  | None => s
  end.

(** ** String.prototype.trim *)

Fixpoint trim_end (s : string) : string :=
  match s with
  | EmptyString => EmptyString
  | String c r =>
      let r' := trim_end r in
      if is_space c && String.eqb r' EmptyString then EmptyString else String c r'
  end.

Definition js_trim (s : string) : string := trim_end (skip_spaces s).

(** ** Lemmas *)

Fixpoint has_char (c : ascii) (s : string) : bool :=
  match s with
  | EmptyString => false
  | String x r => Ascii.eqb x c || has_char c r
  end.

(** A replacement without [$] is inserted as it is. *)
Lemma get_substitution_plain m b a rep :
  has_char "$"%char rep = false -> get_substitution m b a rep = rep.
Proof.
  induction rep as [|x r IH]; [reflexivity|].
  intros H. cbn [has_char] in H. apply orb_false_iff in H as [Hx Hr].
  rewrite <- (IH Hr) at 2.
  destruct x as [[] [] [] [] [] [] [] []]; try reflexivity; discriminate Hx.
Qed.

Lemma span_digits_all (ds rest : string) :
  all_digits ds = true ->
  (match rest with String c _ => is_digit c = false | EmptyString => True end) ->
  span_digits (ds ++ rest) = (ds, rest).
Proof.
  induction ds as [|x ds IH]; simpl; intros Hd Hr.
  - destruct rest as [|c r]; [reflexivity|]. simpl. now rewrite Hr.
  - apply andb_true_iff in Hd as [Hx Hds]. rewrite Hx, IH by assumption. reflexivity.
Qed.

Lemma dec_N_first_char n : exists c r, dec_N n = String c r /\ is_digit c = true.
Proof.
  pose proof (all_digits_dec_N n) as Hd. pose proof (dec_N_nonempty n) as Hn.
  destruct (dec_N n) as [|c r]; [contradiction|]. simpl in Hd.
  apply andb_true_iff in Hd as [Hc _]. eauto.
Qed.

(** [parseFloat] reads back what the templates print. *)
Lemma parse_float_int_str (c : Z) : parse_float_cents (int_str c) = Some c.
Proof.
  unfold parse_float_cents, int_str, sign_str.
  destruct (dec_N_first_char (Z.to_N (Z.abs c))) as (d & r & Hdr & Hd).
  destruct (Z.ltb_spec c 0) as [Hneg|Hpos]; simpl.
  - rewrite <- (str_app_nil_r (dec_N _)).
    rewrite span_digits_all by (auto with cart; exact I). simpl.
    rewrite digits_value_dec_N. f_equal. lia.
  - rewrite Hdr. simpl. rewrite digit_not_space by exact Hd.
    destruct (digit_not_sign d Hd) as [-> ->].
    rewrite <- Hdr, <- (str_app_nil_r (dec_N _)).
    rewrite span_digits_all by (auto with cart; exact I). simpl.
    rewrite digits_value_dec_N. f_equal. lia.
Qed.

Lemma has_char_app ch a b : has_char ch (a ++ b) = has_char ch a || has_char ch b.
Proof. induction a as [|x r IH]; simpl; [reflexivity | now rewrite IH, orb_assoc]. Qed.

Lemma has_char_digits ch s :
  is_digit ch = false -> all_digits s = true -> has_char ch s = false.
Proof.
  intros Hch. induction s as [|x r IH]; simpl; [reflexivity|].
  intros H. apply andb_true_iff in H as [Hx Hr]. rewrite IH by exact Hr.
  destruct (Ascii.eqb_spec x ch) as [->|]; [congruence | reflexivity].
Qed.

(** A pattern starting with [c] is not found in a prefix without [c]. *)
Lemma find_split_skip (c : ascii) (pr a b : string) :
  has_char c a = false ->
  find_split (String c pr) (a ++ b) =
  match find_split (String c pr) b with Some (x, y) => Some (a ++ x, y) | None => None end.
Proof.
  induction a as [|x r IH]; simpl; intros H.
  - now destruct (find_split (String c pr) b) as [[]|].
  - apply orb_false_iff in H as [Hx Hr].
    destruct (ascii_dec c x) as [->|_]; [now rewrite Ascii.eqb_refl in Hx|].
    rewrite IH by exact Hr. now destruct (find_split (String c pr) b) as [[]|].
Qed.

Lemma find_split_absent (c : ascii) (pr s : string) :
  has_char c s = false -> find_split (String c pr) s = None.
Proof.
  intros H. rewrite <- (str_app_nil_r s), find_split_skip by exact H. reflexivity.
Qed.

Lemma sign_no_char ch c : Ascii.eqb "-"%char ch = false -> has_char ch (sign_str c) = false.
Proof. unfold sign_str. destruct (c <? 0)%Z; simpl; [now rewrite orb_false_r | reflexivity]. Qed.

Lemma digits_value_pad2 m : (m < 100)%N -> digits_value (pad2 m) = Some m.
Proof.
  intros Hm. unfold pad2, digits_value. cbn [digits_acc].
  assert (H1 : (m / 10 < 10)%N) by (apply N.Div0.div_lt_upper_bound; lia).
  rewrite !digit_char_digit, !digit_char_val by auto with cart.
  f_equal. n_divmod.
Qed.

(** ** parseInt with no radix *)

(** A digit of radix 10, or of radix 16 when [hex]. *)
Definition radix_digit (hex : bool) (c : ascii) : option N :=
  if is_digit c then Some (digit_val c)
  else if hex then
    let n := N_of_ascii c in
    if (97 <=? n)%N && (n <=? 102)%N then Some (n - 87)%N
    else if (65 <=? n)%N && (n <=? 70)%N then Some (n - 55)%N
    else None
  else None.

(** The longest prefix of radix digits, read as a number: [None] when it is
    empty. *)
Fixpoint radix_prefix (hex : bool) (acc : option N) (s : string) : option N :=
  match s with
  | String c r =>
      match radix_digit hex c with
      | Some d =>
          radix_prefix hex (Some ((match acc with Some a => a | None => 0 end)
                                   * (if hex then 16 else 10) + d)%N) r
      | None => acc
      end
  | EmptyString => acc
  end.

(** The "0x" / "0X" prefix test of [parseInt]: radix 16 and the rest, or
    radix 10 and the whole string. *)
Definition hex_split (u : string) : bool * string :=
  match u with
  | String "0"%char (String x r) =>
      if Ascii.eqb x "x"%char || Ascii.eqb x "X"%char then (true, r) else (false, u)
  | _ => (false, u)
  end.

(** [parseInt(s)] (ECMA-262 19.2.5) with the radix undefined: white space,
    an optional sign, a "0x" or "0X" prefix selecting radix 16, then the
    longest prefix of digits; [None] is [NaN]. *)
Definition parse_int (s : string) : option Z :=
  let t := skip_spaces s in
  let (neg, u) :=
    match t with
    | String c r =>
        if Ascii.eqb c "-"%char then (true, r)
        else if Ascii.eqb c "+"%char then (false, r) else (false, t)
    | EmptyString => (false, t)
    end in
  let (hex, v) := hex_split u in
  match radix_prefix hex None v with
  | Some n => Some (if neg then (- Z.of_N n)%Z else Z.of_N n)
  | None => None
  end.

Lemma radix_prefix_digits acc ds :
  all_digits ds = true -> ds <> EmptyString ->
  radix_prefix false acc ds = digits_acc (match acc with Some a => a | None => 0 end)%N ds.
Proof.
  revert acc; induction ds as [|c r IH]; intros acc Hd Hne; [contradiction|].
  cbn in Hd. apply andb_true_iff in Hd as [Hc Hr]. cbn [radix_prefix digits_acc].
  unfold radix_digit. rewrite Hc. destruct r as [|c' r'].
  - reflexivity.
  - rewrite IH by (assumption || discriminate). reflexivity.
Qed.

Lemma hex_split_digits u : all_digits u = true -> hex_split u = (false, u).
Proof.
  intros Hd. destruct u as [|c [|x r]]; [reflexivity | ascii_cases c; reflexivity |].
  cbn in Hd. apply andb_true_iff in Hd as [_ Hd]. apply andb_true_iff in Hd as [Hx _].
  ascii_cases c; try reflexivity; ascii_cases x; try reflexivity; discriminate Hx.
Qed.

(** [parseInt] reads back the quantities the script writes. *)
Lemma parse_int_int_str (c : Z) : parse_int (int_str c) = Some c.
Proof.
  unfold parse_int, int_str, sign_str.
  destruct (dec_N_first_char (Z.to_N (Z.abs c))) as (d & r & Hdr & Hd).
  assert (Hv : radix_prefix false None (dec_N (Z.to_N (Z.abs c))) = Some (Z.to_N (Z.abs c))).
  { rewrite radix_prefix_digits by (apply all_digits_dec_N || apply dec_N_nonempty).
    now rewrite digits_acc_dec_N. }
  destruct (Z.ltb_spec c 0) as [Hneg|Hpos]; cbn [String.append skip_spaces].
  - cbn -[hex_split radix_prefix dec_N].
    rewrite hex_split_digits, Hv by apply all_digits_dec_N. f_equal. lia.
  - rewrite Hdr. cbn [skip_spaces]. rewrite digit_not_space by exact Hd.
    destruct (digit_not_sign d Hd) as [-> ->]. rewrite <- Hdr.
    rewrite hex_split_digits, Hv by apply all_digits_dec_N. f_equal. lia.
Qed.
