(* ===== verification/MoneyFormat.v ===== *)
(** * formatMoney of cart-total-updater.js

    Module [TotalFormat] translates [formatMoney] and its inner
    [formatWithDelimiters] (src/assets/cart-total-updater.js, lines 31-73):
    the thousands-separator regular expression of line 51 as a literal
    left-to-right scan with its lookahead, the placeholder regular
    expression of line 36 as a first-match search, the four placeholder
    cases of the [switch] and the TypeError of [match(...)[1]] when the
    format has no placeholder. The theorems characterise the scan as the
    grouping of digits by three from the right, give the output of every
    placeholder case and show the two-decimal output reads back to the
    cent amount. *)

From Stdlib Require Import String Ascii ZArith NArith List Bool Lia.
From S2P Require Import Prelude JsRuntime.
Import ListNotations.
Open Scope string_scope.
Open Scope cart_scope.

Module TotalFormat.

(** ** The thousands regular expression [/(\d)(?=(\d\d\d)+(?!\d))/g] *)

(** Number of digits at the start of a string. *)
Fixpoint digit_run (s : string) : nat :=
  match s with
  | String c r => if is_digit c then S (digit_run r) else O
  | EmptyString => O
  end.

(** The lookahead [(?=(\d\d\d)+(?!\d))] holds after a position iff the
    digits that follow form a non-empty run whose length is a multiple of
    three: the greedy [(\d\d\d)+] backtracks to the end of the run or fails. *)
Definition thousands_lookahead (r : string) : bool :=
  let k := digit_run r in (0 <? k)%nat && (k mod 3 =? 0)%nat.

(** [s.replace(/(\d)(?=(\d\d\d)+(?!\d))/g, '$1' + thousands)]: every digit
    whose lookahead holds is followed by the separator; each match consumes
    one character and the global search resumes after it. *)
Fixpoint add_thousands (sep : string) (s : string) : string :=
  match s with
  | EmptyString => EmptyString
  | String c r =>
      if is_digit c && thousands_lookahead r then String c (sep ++ add_thousands sep r)
      else String c (add_thousands sep r)
  end.

(** ** formatWithDelimiters *)

(** [x || d] on an optional string argument: [undefined] and [""] are
    falsy. *)
Definition str_or (x : option string) (d : string) : string :=
  match x with
  | Some (String _ _ as s) => s
  | _ => d
  end.

(** [formatWithDelimiters(number, precision, thousands, decimal)] (lines
    39-55). [None] for [number] is [NaN]; the function then returns the
    number [0], which [replace] turns into the string "0". *)
Definition format_with_delimiters (number : option Z) (precision : option precision)
    (thousands decimal : option string) : string :=
  let p := match precision with Some p => p | None => Prec2 end in
  let thousands := str_or thousands "," in
  let decimal := str_or decimal "." in
  match number with
  | None => "0"
  | Some c =>
      let number := to_fixed_cents p c in
      let parts := split_on "."%char number in
      let dollars := add_thousands thousands (nth 0 parts EmptyString) in
      let cents := match nth_error parts 1 with
                   | Some (String _ _ as p1) => decimal ++ p1
                   | _ => EmptyString
                   end in
      dollars ++ cents
  end.

(** ** The placeholder regular expression [/\{\{\s*(\w+)\s*\}\}/] *)

(** The longest prefix of characters of a class, and the rest. *)
Fixpoint span_class (p : ascii -> bool) (s : string) : string * string :=
  match s with
  | String c r => if p c then let (a, b) := span_class p r in (String c a, b) else (EmptyString, s)
  | EmptyString => (EmptyString, EmptyString)
  end.

(** A match starting at the first character: the captured name and the
    text after the match. The classes [\s] and [\w] are disjoint, so the
    greedy quantifiers never need to backtrack. *)
Definition match_placeholder_here (s : string) : option (string * string) :=
  match s with
  | String "{"%char (String "{"%char r) =>
      let r1 := snd (span_class is_space r) in
      let (name, r2) := span_class is_word_char r1 in
      let r3 := snd (span_class is_space r2) in
      match name, r3 with
      | String _ _, String "}"%char (String "}"%char r4) => Some (name, r4)
      | _, _ => None
      end
  | _ => None
  end.

(** [formatString.match(placeholderRegex)]: the first match, as the text
    before it, the capture and the text after it; [None] is [null]. *)
Fixpoint match_placeholder (s : string) : option (string * string * string) :=
  match match_placeholder_here s with
  | Some (name, after) => Some (EmptyString, name, after)
  | None =>
      match s with
      | EmptyString => None
      | String c r =>
          match match_placeholder r with
          | Some (b, name, a) => Some (String c b, name, a)
          | None => None
          end
      end
  end.

(** ** formatMoney *)

(** The [switch] on the captured name (lines 57-70); any other name leaves
    [value] at [''].  *)
Definition placeholder_value (cents : option Z) (name : string) : string :=
  if String.eqb name "amount" then format_with_delimiters cents (Some Prec2) None None
  else if String.eqb name "amount_no_decimals" then format_with_delimiters cents (Some Prec0) None None
  else if String.eqb name "amount_with_comma_separator" then
    format_with_delimiters cents (Some Prec2) (Some ".") (Some ",")
  else if String.eqb name "amount_no_decimals_with_comma_separator" then
    format_with_delimiters cents (Some Prec0) (Some ".") (Some ",")
  else EmptyString.

(** [formatMoney(cents, format)] (lines 31-73) on a number [cents] ([None]
    is [NaN]); the caller [updateCartTotal] always passes a number. [None]
    as result is an uncaught TypeError: [format || this.money_format] reads
    a property of [this], which is [undefined] in this strict-mode function,
    when [format] is empty; [match(...)[1]] indexes [null] when the format
    has no placeholder. [replace] inserts [value] unchanged: it is made of
    digits, signs and separators and contains no [$] pattern. *)
Definition format_money (cents : option Z) (format : string) : option string :=
  match format with
  | EmptyString => None
  | _ =>
      match match_placeholder format with
      | None => None
      | Some (before, name, after) => Some (before ++ placeholder_value cents name ++ after)
      end
  end.

(** ** Reference specifications *)

(** Grouping by thousands computed on the number: the digits of [n / 1000]
    grouped, the separator, and the last three digits. Fuel [N.size n]
    bounds the number of groups. *)
Fixpoint group_fuel (fuel : nat) (sep : string) (n : N) : string :=
  match fuel with
  | O => dec_N n
  | S f => if (n <? 1000)%N then dec_N n
           else group_fuel f sep (n / 1000) ++ sep ++ pad3 (n mod 1000)
  end.

Definition group_thousands (sep : string) (n : N) : string :=
  group_fuel (N.to_nat (N.size n)) sep n.

Fixpoint remove_char (t : ascii) (s : string) : string :=
  match s with
  | EmptyString => EmptyString
  | String c r => if Ascii.eqb c t then remove_char t r else String c (remove_char t r)
  end.

(** Reading a two-decimal amount back: an optional minus sign, digits with
    the thousands separator [t], the decimal mark [d] and two digits. *)
Definition unformat_amount (t d : ascii) (s : string) : option Z :=
  let (neg, u) := match s with
                  | String "-"%char r => (true, r)
                  | _ => (false, s)
                  end in
  match split_on d (remove_char t u) with
  | [ip; fp] =>
      iv <- digits_value ip ;;
      fv <- digits_value fp ;;
      if (String.length fp =? 2)%nat
      then Some (if neg then (- Z.of_N (iv * 100 + fv))%Z else Z.of_N (iv * 100 + fv))
      else None
  | _ => None
  end.

(** ** The thousands scan *)

Lemma digit_run_app a t :
  all_digits a = true -> digit_run (a ++ t) = (String.length a + digit_run t)%nat.
Proof.
  induction a as [|c a IH]; simpl; [reflexivity|].
  intros H. apply andb_true_iff in H as [Hc Ha]. now rewrite Hc, IH.
Qed.

Lemma digit_run_all r : all_digits r = true -> digit_run r = String.length r.
Proof.
  intros H. rewrite <- (str_app_nil_r r) at 1. rewrite digit_run_app by exact H.
  simpl. apply Nat.add_0_r.
Qed.

Lemma lookahead_digits r :
  all_digits r = true ->
  thousands_lookahead r = (0 <? String.length r)%nat && (String.length r mod 3 =? 0)%nat.
Proof. intros H. unfold thousands_lookahead. now rewrite digit_run_all. Qed.

(** The scan distributes over a block of digits followed by a run whose
    length is a positive multiple of three. *)
Lemma add_thousands_app sep a t :
  all_digits a = true -> a <> EmptyString ->
  (0 < digit_run t)%nat -> (digit_run t mod 3 = 0)%nat ->
  add_thousands sep (a ++ t) = add_thousands sep a ++ sep ++ add_thousands sep t.
Proof.
  intros Ha Hne Hpos Hmod. induction a as [|c r IH]; [contradiction|].
  simpl in Ha. apply andb_true_iff in Ha as [Hc Hr].
  assert (Hla : thousands_lookahead (r ++ t) = (String.length r mod 3 =? 0)%nat).
  { unfold thousands_lookahead. rewrite digit_run_app by exact Hr.
    replace (0 <? _ + _)%nat with true by (symmetry; apply Nat.ltb_lt; lia).
    now rewrite <- Nat.Div0.add_mod_idemp_r, Hmod, Nat.add_0_r. }
  simpl. rewrite Hc, Hla.
  destruct r as [|c' r'].
  - reflexivity.
  - rewrite IH by (assumption || discriminate).
    rewrite lookahead_digits by exact Hr.
    replace (0 <? String.length (String c' r'))%nat with true by (symmetry; apply Nat.ltb_lt; simpl; lia).
    cbn [andb]. destruct (String.length (String c' r') mod 3 =? 0)%nat; simpl; now rewrite ?str_app_assoc.
Qed.

(** Three digits or fewer: no separator. *)
Lemma add_thousands_short sep s :
  all_digits s = true -> (String.length s <= 3)%nat -> add_thousands sep s = s.
Proof.
  induction s as [|c r IH]; simpl; [reflexivity|]. intros H Hl.
  apply andb_true_iff in H as [Hc Hr]. rewrite Hc, lookahead_digits, IH by (assumption || lia).
  destruct (String.length r) as [|[|[|k]]] eqn:E; simpl; reflexivity || lia.
Qed.

Lemma dec_N_length_bound k n :
  (n < 10 ^ N.of_nat (S k))%N -> (String.length (dec_N n) <= S k)%nat.
Proof.
  revert n; induction k as [|k IH]; intros n Hn.
  - rewrite dec_N_small by (simpl in Hn; lia). simpl. lia.
  - destruct (N.lt_ge_cases n 10) as [H|H].
    + rewrite dec_N_small by exact H. simpl. lia.
    + rewrite dec_N_step, str_length_app by exact H. simpl.
      enough (String.length (dec_N (n / 10)) <= S k)%nat by lia. apply IH.
      rewrite (Nat2N.inj_succ (S k)), N.pow_succ_r' in Hn.
      apply N.Div0.div_lt_upper_bound; lia.
Qed.

(** Decimal notation splits into the notation of [n / 1000] and the last
    three digits. *)
Lemma dec_N_thousands n :
  (1000 <= n)%N -> dec_N n = dec_N (n / 1000) ++ pad3 (n mod 1000).
Proof.
  intros Hn.
  rewrite (dec_N_step n), (dec_N_step (n / 10)), (dec_N_step (n / 10 / 10))
    by first [lia | rewrite ?N.Div0.div_div; apply N.div_le_lower_bound; lia].
  rewrite !N.Div0.div_div. simpl (10 * 10)%N. simpl (100 * 10)%N.
  rewrite !str_app_assoc. unfold pad3, pad2.
  replace (n mod 1000 / 100)%N with (n / 100 mod 10)%N by n_divmod.
  replace (n mod 1000 mod 100 / 10)%N with (n / 10 mod 10)%N by n_divmod.
  replace (n mod 1000 mod 100 mod 10)%N with (n mod 10)%N by n_divmod.
  reflexivity.
Qed.

Lemma add_thousands_lt_1000 sep n : (n < 1000)%N -> add_thousands sep (dec_N n) = dec_N n.
Proof.
  intros H. apply add_thousands_short; [apply all_digits_dec_N|].
  apply (dec_N_length_bound 2). simpl. lia.
Qed.

Lemma digit_run_pad3 m : (m < 1000)%N -> digit_run (pad3 m) = 3%nat.
Proof. intros H. rewrite digit_run_all by now apply all_digits_pad3. reflexivity. Qed.

Lemma add_thousands_pad3 sep m : (m < 1000)%N -> add_thousands sep (pad3 m) = pad3 m.
Proof. intros H. apply add_thousands_short; [now apply all_digits_pad3 | simpl; lia]. Qed.

Lemma add_thousands_group_fuel sep f n :
  (n < 1000 ^ N.of_nat f)%N -> add_thousands sep (dec_N n) = group_fuel f sep n.
Proof.
  revert n; induction f as [|f IH]; intros n Hn.
  - apply add_thousands_lt_1000. simpl in Hn. lia.
  - cbn [group_fuel]. destruct (N.ltb_spec n 1000) as [Hlt|Hge].
    + now apply add_thousands_lt_1000.
    + assert (Hm : (n mod 1000 < 1000)%N) by (apply N.mod_lt; lia).
      rewrite dec_N_thousands by exact Hge.
      rewrite add_thousands_app; [| apply all_digits_dec_N | apply dec_N_nonempty
                                  | rewrite digit_run_pad3 by exact Hm; lia
                                  | rewrite digit_run_pad3 by exact Hm; reflexivity].
      rewrite add_thousands_pad3, IH; [reflexivity | | exact Hm].
      rewrite Nat2N.inj_succ, N.pow_succ_r' in Hn. apply N.Div0.div_lt_upper_bound; lia.
Qed.

(** ** Theorems *)

Lemma add_thousands_group (sep : string) (n : N) :
  add_thousands sep (dec_N n) = group_thousands sep n.
Proof.
  apply add_thousands_group_fuel. rewrite N2Nat.id.
  eapply N.lt_le_trans; [apply N.size_gt|]. apply N.pow_le_mono_l. lia.
Qed.

(** C1. The thousands regular expression, applied to the decimal notation
    of a number, computes the grouping by three digits from the right:
    the scan equals the arithmetic reference [group_thousands]. *)
Theorem add_thousands_dec_N (sep : string) (n : N) :
  add_thousands sep (dec_N n) = group_thousands sep n.
Proof. apply add_thousands_group. Qed.

Lemma split_on_no_sep sep s : has_char sep s = false -> split_on sep s = [s].
Proof.
  induction s as [|x r IH]; simpl; [reflexivity|].
  intros H. apply orb_false_iff in H as [Hx Hr]. now rewrite Hx, IH.
Qed.

Lemma split_on_app_sep sep a b :
  has_char sep a = false -> split_on sep (a ++ String sep b) = a :: split_on sep b.
Proof.
  induction a as [|x r IH]; simpl; intros H.
  - now rewrite Ascii.eqb_refl.
  - apply orb_false_iff in H as [Hx Hr]. now rewrite Hx, IH.
Qed.

Lemma sign_no_dot c : has_char "."%char (sign_str c) = false.
Proof. unfold sign_str. now destruct (c <? 0)%Z. Qed.

Lemma add_thousands_sign sep c s :
  add_thousands sep (sign_str c ++ s) = sign_str c ++ add_thousands sep s.
Proof. unfold sign_str. now destruct (c <? 0)%Z. Qed.

Lemma amount_no_dot n : has_char "."%char (dec_N n) = false.
Proof. apply has_char_digits; [reflexivity | apply all_digits_dec_N]. Qed.

Lemma pad2_no_char ch m : is_digit ch = false -> (m < 100)%N -> has_char ch (pad2 m) = false.
Proof. intros Hch Hm. apply has_char_digits; [exact Hch | now apply all_digits_pad2]. Qed.

Lemma mod_100_lt a : (a mod 100 < 100)%N.
Proof. apply N.mod_lt. lia. Qed.

#[local] Hint Resolve mod_100_lt : cart.

(** [formatWithDelimiters] with two decimals, before the grouping is
    rewritten: sign, scanned dollars, decimal mark, two digits. *)
Lemma format_with_delimiters_prec2 c t d :
  format_with_delimiters (Some c) (Some Prec2) t d =
  sign_str c ++ add_thousands (str_or t ",") (dec_N (Z.to_N (Z.abs c) / 100))
    ++ str_or d "." ++ pad2 (Z.to_N (Z.abs c) mod 100).
Proof.
  unfold format_with_delimiters, to_fixed_cents. cbv zeta.
  change ("." ++ ?p) with (String "."%char p). rewrite <- str_app_assoc.
  rewrite split_on_app_sep
    by (rewrite has_char_app, sign_no_dot, amount_no_dot; reflexivity).
  rewrite split_on_no_sep by (apply pad2_no_char; auto with cart).
  cbn [nth nth_error]. rewrite add_thousands_sign, str_app_assoc. reflexivity.
Qed.

Lemma format_with_delimiters_prec0 c t d :
  format_with_delimiters (Some c) (Some Prec0) t d =
  sign_str c ++ add_thousands (str_or t ",") (dec_N ((Z.to_N (Z.abs c) + 50) / 100)).
Proof.
  unfold format_with_delimiters, to_fixed_cents. cbv zeta.
  rewrite split_on_no_sep by (rewrite has_char_app, sign_no_dot, amount_no_dot; reflexivity).
  cbn [nth nth_error]. rewrite add_thousands_sign, str_app_nil_r. reflexivity.
Qed.

Lemma format_with_delimiters_eq (c : Z) (p : precision) (t d : option string) :
  format_with_delimiters (Some c) (Some p) t d =
  sign_str c ++
  match p with
  | Prec2 => group_thousands (str_or t ",") (Z.to_N (Z.abs c) / 100)
             ++ str_or d "." ++ pad2 (Z.to_N (Z.abs c) mod 100)
  | Prec0 => group_thousands (str_or t ",") ((Z.to_N (Z.abs c) + 50) / 100)
  end.
Proof.
  destruct p; [rewrite format_with_delimiters_prec0 | rewrite format_with_delimiters_prec2];
    now rewrite add_thousands_group.
Qed.

(** C2. [formatWithDelimiters] on a number: the sign of a negative amount,
    the dollars grouped by thousands with the separator (default ","), then
    with two decimals the decimal mark (default ".") and the cents padded to
    two digits; with no decimals the amount rounded half up to whole units. *)
Theorem format_with_delimiters_spec (c : Z) (p : precision) (t d : option string) :
  format_with_delimiters (Some c) (Some p) t d =
  sign_str c ++
  match p with
  | Prec2 => group_thousands (str_or t ",") (Z.to_N (Z.abs c) / 100)
             ++ str_or d "." ++ pad2 (Z.to_N (Z.abs c) mod 100)
  | Prec0 => group_thousands (str_or t ",") ((Z.to_N (Z.abs c) + 50) / 100)
  end.
Proof. apply format_with_delimiters_eq. Qed.

(** C3. With the theme's default format "${{amount}}" the footer text is
    "$", the sign, the grouped dollars, "." and two cent digits. *)
Theorem format_money_default (c : Z) :
  format_money (Some c) "${{amount}}" =
  Some ("$" ++ sign_str c ++ group_thousands "," (Z.to_N (Z.abs c) / 100)
        ++ "." ++ pad2 (Z.to_N (Z.abs c) mod 100)).
Proof.
  cbn [format_money match_placeholder match_placeholder_here span_class snd
       is_space is_word_char]. simpl.
  unfold placeholder_value. simpl String.eqb. cbv iota beta.
  rewrite format_with_delimiters_eq, str_app_nil_r. reflexivity.
Qed.

(** C4. [formatMoney] throws exactly when the format is empty (the
    [this.money_format] fallback reads a property of [undefined]) or
    contains no [{{ name }}] placeholder ([match] returns [null]); otherwise
    the first placeholder is replaced by the value of its case. *)
Theorem format_money_throws (cents : option Z) (format : string) :
  format_money cents format = None <->
  format = EmptyString \/ match_placeholder format = None.
Proof.
  unfold format_money. destruct format as [|c r]; [tauto|].
  destruct (match_placeholder (String c r)) as [[[b n] a]|]; split; intros H;
    try discriminate; try tauto; destruct H; discriminate.
Qed.

Lemma remove_char_app t a b : remove_char t (a ++ b) = remove_char t a ++ remove_char t b.
Proof. induction a as [|x r IH]; simpl; [reflexivity|]. now destruct (Ascii.eqb x t); rewrite IH. Qed.

Lemma remove_char_absent t s : has_char t s = false -> remove_char t s = s.
Proof.
  induction s as [|x r IH]; simpl; [reflexivity|].
  intros H. apply orb_false_iff in H as [Hx Hr]. now rewrite Hx, IH.
Qed.

(** Removing the separator undoes the scan. *)
Lemma remove_add_thousands t s :
  has_char t s = false -> remove_char t (add_thousands [: t :] s) = s.
Proof.
  induction s as [|x r IH]; simpl; [reflexivity|].
  intros H. apply orb_false_iff in H as [Hx Hr].
  destruct (is_digit x && thousands_lookahead r); simpl;
    rewrite ?Ascii.eqb_refl, Hx, IH by exact Hr; reflexivity.
Qed.

Lemma sign_match_nonneg (s : string) :
  (forall r, s <> String "-"%char r) ->
  match s with String "-"%char r => (true, r) | _ => (false, s) end = (false, s).
Proof.
  destruct s as [|x r]; [reflexivity|]. intros H.
  ascii_cases x; try reflexivity; exfalso; eapply H; reflexivity.
Qed.

Lemma add_thousands_dec_no_minus sep n rest r :
  add_thousands sep (dec_N n) ++ rest <> String "-"%char r.
Proof.
  destruct (dec_N_first_char n) as (y & q & Hy & Hdy). rewrite Hy. simpl.
  destruct (is_digit y && thousands_lookahead q); simpl; intros E; injection E as Ey _; subst y;
    discriminate Hdy.
Qed.

Section Roundtrip.
Variables t d : ascii.
Hypothesis t_not_digit : is_digit t = false.
Hypothesis d_not_digit : is_digit d = false.
Hypothesis t_not_d : t <> d.
Hypothesis t_not_minus : t <> "-"%char.

Lemma unformat_amount_ok (c : Z) :
  unformat_amount t d
    (sign_str c ++ add_thousands [: t :] (dec_N (Z.to_N (Z.abs c) / 100))
       ++ [: d :] ++ pad2 (Z.to_N (Z.abs c) mod 100)) = Some c.
Proof.
  set (a := Z.to_N (Z.abs c)).
  assert (Ha : Z.of_N (a / 100 * 100 + a mod 100) = Z.abs c).
  { replace (a / 100 * 100 + a mod 100)%N with a by n_divmod. unfold a. lia. }
  assert (Hrest : split_on d (remove_char t
            (add_thousands [: t :] (dec_N (a / 100)) ++ String d (pad2 (a mod 100))))
          = [dec_N (a / 100); pad2 (a mod 100)]).
  { assert (Hdig : forall s, all_digits s = true -> forall ch, is_digit ch = false ->
              has_char ch s = false) by (intros; now apply has_char_digits).
    rewrite remove_char_app, remove_add_thousands by auto using all_digits_dec_N.
    cbn [remove_char]. destruct (Ascii.eqb_spec d t) as [E|_]; [congruence|].
    rewrite remove_char_absent by auto using all_digits_pad2 with cart.
    rewrite split_on_app_sep, split_on_no_sep; [reflexivity | |];
      auto using all_digits_dec_N, all_digits_pad2 with cart. }
  unfold unformat_amount, sign_str. fold a.
  destruct (Z.ltb_spec c 0) as [Hneg|Hpos].
  - cbn -[remove_char split_on add_thousands dec_N pad2 digits_value String.length]. rewrite Hrest, digits_value_dec_N, digits_value_pad2 by auto with cart.
    simpl. f_equal. rewrite Ha. lia.
  - cbn -[remove_char split_on add_thousands dec_N pad2 digits_value String.length].
    rewrite sign_match_nonneg by apply add_thousands_dec_no_minus.
    rewrite Hrest, digits_value_dec_N, digits_value_pad2 by auto with cart.
    simpl. f_equal. rewrite Ha. lia.
Qed.
End Roundtrip.

(** C5. Round trip: the two-decimal amounts of the "amount" and
    "amount_with_comma_separator" cases read back to the cent amount, so
    two different totals are never displayed the same way. *)
Theorem format_amount_roundtrip (c : Z) :
  unformat_amount ","%char "."%char (placeholder_value (Some c) "amount") = Some c /\
  unformat_amount "."%char ","%char
    (placeholder_value (Some c) "amount_with_comma_separator") = Some c.
Proof.
  unfold placeholder_value; simpl String.eqb; cbv iota beta.
  rewrite !format_with_delimiters_prec2. simpl str_or.
  split; apply unformat_amount_ok; reflexivity || discriminate.
Qed.

End TotalFormat.
