(* ===== verification/CartTotal.v ===== *)
(** * updateCartTotal and its observers (cart-total-updater.js)

    Module [CartTotal] models the page state the script reads and writes
    (src/assets/cart-total-updater.js, lines 1-29 and 75-106): the footer
    total element, the line-item elements with their attributes, whether
    the global [theme] exists (reading [theme.moneyFormat] throws a
    ReferenceError otherwise), the theme money format, and the [MutationObserver]s that
    [initializeCartTotalUpdater] attaches to [[data-line-items]]. The
    browser's [innerHTML] round trip (assign a string, read it back) is a
    parameter [serialize] of the Section: it is the identity on plain text
    and differs on markup the parser normalises. The theorems give the
    total as the sum of the prices, say exactly when the update throws, show that one update reaches a fixed
    point when the text survives [serialize] and that, otherwise, an
    observer watching the footer re-triggers itself forever, and count the
    observers that accumulate across cart events. *)

From Stdlib Require Import String Ascii ZArith NArith List Bool Lia.
From S2P Require Import Prelude JsRuntime MoneyFormat.
Import ListNotations.
Open Scope string_scope.
Open Scope cart_scope.

Module CartTotal.
Import TotalFormat.

(** A line-item element: whether it carries [data-cart-item-line-total],
    and its [data-discounted-price] attribute when present. *)
Record line_item := mk_item {
  has_line_total : bool;
  discounted_price : option string
}.

(** The page as the script sees it. *)
Record page := mk_page {
  footer : option string;      (** innerHTML of [[data-cart-footer-total]], if present *)
  items : list line_item;      (** line-item elements in document order *)
  theme_defined : bool;        (** the global [theme] exists *)
  money_format : option string;(** [theme.moneyFormat] *)
  line_items_node : bool;      (** a [[data-line-items]] element exists *)
  footer_observed : bool;      (** the footer lies inside [[data-line-items]] *)
  observers : nat;             (** observers attached by [initializeCartTotalUpdater] *)
  writes : nat;                (** assignments to the footer's innerHTML *)
  update_calls : nat           (** calls of [updateCartTotal] *)
}.

Definition with_footer (p : page) (f : option string) : page :=
  mk_page f (items p) (theme_defined p) (money_format p) (line_items_node p) (footer_observed p)
          (observers p) (S (writes p)) (update_calls p).

Definition count_call (p : page) : page :=
  mk_page (footer p) (items p) (theme_defined p) (money_format p) (line_items_node p) (footer_observed p)
          (observers p) (writes p) (S (update_calls p)).

Definition add_observer (p : page) : page :=
  mk_page (footer p) (items p) (theme_defined p) (money_format p) (line_items_node p) (footer_observed p)
          (S (observers p)) (writes p) (update_calls p).

(** [document.querySelectorAll(LINE_ITEM_TOTAL_SELECTOR)] (line 13): the
    elements that carry both attributes, with the price attribute. *)
Definition selected_prices (l : list line_item) : list string :=
  flat_map (fun it => if has_line_total it then
                        match discounted_price it with Some s => [s] | None => [] end
                      else []) l.

(** The body of the [forEach] of lines 16-21: add the price when it is not
    [NaN]. *)
Definition add_price (acc : Z) (s : string) : Z :=
  match parse_float_cents s with
  | Some v => (acc + v)%Z
  | None => acc
  end.

Definition line_total_sum (l : list line_item) : Z :=
  fold_left add_price (selected_prices l) 0%Z.

(** [theme.moneyFormat || '${{amount}}'] (line 23). *)
Definition total_format (p : page) : string := str_or (money_format p) "${{amount}}".

Section WithSerializer.

(** [el.innerHTML = s; el.innerHTML]: what reading back returns. *)
Variable serialize : string -> string.

(** [updateCartTotal()] (lines 7-29): no footer, no change; otherwise the
    sum is formatted and written when it differs from the current
    innerHTML. [None] is an exception, which leaves the page unchanged and
    propagates: the ReferenceError of line 23 when the global [theme] does
    not exist, or a TypeError of [formatMoney]. *)
Definition update_cart_total (p : page) : option page :=
  match footer p with
  | None => Some (count_call p)
  | Some html =>
      if negb (theme_defined p) then None else
      match format_money (Some (line_total_sum (items p))) (total_format p) with
      | None => None
      | Some f =>
          if String.eqb html f then Some (count_call p)
          else Some (with_footer (count_call p) (Some (serialize f)))
      end
  end.

(** A callback run by the browser: an exception is reported and the page
    stays as it was when the exception was raised. *)
Definition run_update (p : page) : page :=
  match update_cart_total p with Some p' => p' | None => count_call p end.

(** [initializeCartTotalUpdater()] (lines 75-96): update, then attach a new
    observer when [[data-line-items]] exists. An exception in the update
    aborts the function before the observer is created. *)
Definition initialize_cart_total_updater (p : page) : page :=
  match update_cart_total p with
  | None => count_call p
  | Some p' => if line_items_node p' then add_observer p' else p'
  end.

(** Events and timer callbacks that reach the script. *)
Inductive event :=
  | DOMContentLoaded       (** line 98 *)
  | ThemeCartChangeTimer   (** the 500 ms timer set on [theme:cart:change], lines 99-101 *)
  | CartUpdateTimer        (** the 500 ms timer set on [cartUpdateComplete], lines 102-104 *)
  | Mutations.             (** a batch of [childList] or [data-discounted-price] records *)

(** Each attached observer receives the batch and calls [updateCartTotal]
    once (the [break] of line 82). *)
Definition notify_observers (p : page) : page := Nat.iter (observers p) run_update p.

Definition handle (p : page) (e : event) : page :=
  match e with
  | DOMContentLoaded | ThemeCartChangeTimer | CartUpdateTimer => initialize_cart_total_updater p
  | Mutations => notify_observers p
  end.

Definition run_events (p : page) (es : list event) : page := fold_left handle es p.

(** One observer round triggered by the footer write: the footer is
    observed, the observer updates and writes again. *)
Definition feedback (p p' : page) : Prop :=
  footer_observed p = true /\ update_cart_total p = Some p' /\ writes p' = S (writes p).

(** ** Lemmas *)

(** The configuration an update never changes. *)
Definition same_config (p p' : page) : Prop :=
  items p' = items p /\ money_format p' = money_format p /\
  line_items_node p' = line_items_node p /\ footer_observed p' = footer_observed p /\
  observers p' = observers p /\ theme_defined p' = theme_defined p.

Lemma same_config_refl p : same_config p p.
Proof. repeat split. Qed.

Lemma update_same_config p p' : update_cart_total p = Some p' -> same_config p p'.
Proof.
  unfold update_cart_total.
  destruct (footer p) as [html|]; [|intros H; injection H as <-; repeat split].
  destruct (negb (theme_defined p)); [discriminate|].
  destruct (format_money _ _) as [f|]; [|discriminate].
  destruct (String.eqb html f); intros H; injection H as <-; repeat split.
Qed.

Lemma total_format_nonempty p : total_format p <> EmptyString.
Proof. unfold total_format, str_or. destruct (money_format p) as [[|]|]; discriminate. Qed.

Lemma format_money_some cents fmt :
  fmt <> EmptyString -> match_placeholder fmt <> None -> exists f, format_money cents fmt = Some f.
Proof.
  intros Hne Hm. unfold format_money. destruct fmt as [|c r]; [contradiction|].
  destruct (match_placeholder (String c r)) as [[[b n] a]|]; [eauto | contradiction].
Qed.

Lemma format_money_no_placeholder cents fmt :
  match_placeholder fmt = None -> format_money cents fmt = None.
Proof. intros Hm. unfold format_money. destruct fmt; [reflexivity|]. now rewrite Hm. Qed.

Lemma update_some p :
  theme_defined p = true -> match_placeholder (total_format p) <> None ->
  exists p', update_cart_total p = Some p'.
Proof.
  intros Ht Hm. unfold update_cart_total.
  destruct (footer p) as [html|]; [|eauto]. rewrite Ht. cbn [negb].
  destruct (format_money_some (Some (line_total_sum (items p))) (total_format p)) as [f Hf];
    [apply total_format_nonempty | exact Hm|].
  unfold total_format in *. cbn [items money_format]. rewrite Hf.
  destruct (String.eqb html f); eauto.
Qed.

Lemma update_calls_update p p' :
  update_cart_total p = Some p' -> update_calls p' = S (update_calls p).
Proof.
  unfold update_cart_total.
  destruct (footer p) as [html|]; [|intros H; injection H as <-; reflexivity].
  destruct (negb (theme_defined p)); [discriminate|].
  destruct (format_money _ _) as [f|]; [|discriminate].
  destruct (String.eqb html f); intros H; injection H as <-; reflexivity.
Qed.

Lemma run_update_counts p :
  update_calls (run_update p) = S (update_calls p) /\ observers (run_update p) = observers p.
Proof.
  unfold run_update. destruct (update_cart_total p) as [p'|] eqn:E; [|split; reflexivity].
  split; [now apply update_calls_update | now apply update_same_config].
Qed.

Lemma iter_run_update k p :
  update_calls (Nat.iter k run_update p) = (k + update_calls p)%nat /\
  observers (Nat.iter k run_update p) = observers p.
Proof.
  induction k as [|k [IH1 IH2]]; [split; reflexivity|].
  rewrite Nat.iter_succ. destruct (run_update_counts (Nat.iter k run_update p)) as [H1 H2].
  rewrite H1, H2, IH1, IH2. split; reflexivity.
Qed.

(** Initialisation keeps the configuration and attaches one observer when
    the update does not throw. *)
Lemma initialize_adds_observer p :
  line_items_node p = true -> theme_defined p = true -> match_placeholder (total_format p) <> None ->
  observers (initialize_cart_total_updater p) = S (observers p) /\
  line_items_node (initialize_cart_total_updater p) = true /\
  money_format (initialize_cart_total_updater p) = money_format p /\
  theme_defined (initialize_cart_total_updater p) = true.
Proof.
  intros Hn Ht Hm. destruct (update_some p Ht Hm) as [p' Hp'].
  destruct (update_same_config p p' Hp') as (_ & Hf & Hl & _ & Ho & Htd).
  unfold initialize_cart_total_updater. rewrite Hp', Hl, Hn. cbn. rewrite Ho, Hl, Htd. auto.
Qed.

Lemma fold_sum_acc (l : list string) (acc : Z) :
  fold_left add_price l acc = (acc + fold_left add_price l 0)%Z.
Proof.
  revert acc; induction l as [|s l IH]; intros acc; simpl; [lia|].
  rewrite (IH (add_price acc s)), (IH (add_price 0 s)).
  unfold add_price. destruct (parse_float_cents s); lia.
Qed.

Lemma same_format_update p p' :
  same_config p p' ->
  format_money (Some (line_total_sum (items p'))) (total_format p') =
  format_money (Some (line_total_sum (items p))) (total_format p).
Proof. intros (Hi & Hm & _). unfold total_format. now rewrite Hi, Hm. Qed.

(** After an update, the next update writes nothing when the formatted
    total survives the innerHTML round trip. *)
Lemma update_stable p p1 f :
  format_money (Some (line_total_sum (items p))) (total_format p) = Some f ->
  serialize f = f ->
  update_cart_total p = Some p1 -> update_cart_total p1 = Some (count_call p1).
Proof.
  intros Hf Hs Hu. pose proof (update_same_config p p1 Hu) as Hc.
  pose proof (same_format_update p p1 Hc) as Hf1. rewrite Hf in Hf1.
  revert Hu. unfold update_cart_total at 1.
  unfold update_cart_total.
  destruct (footer p) as [html|] eqn:Ep.
  - unfold total_format in *. rewrite Hf, Hf1.
    destruct (theme_defined p) eqn:Et; cbn [negb]; [|discriminate].
    destruct (String.eqb_spec html f) as [->|Hne]; intros H; injection H as <-; cbn [footer];
      unfold count_call, with_footer; cbn [footer theme_defined]; rewrite ?Ep, ?Et, ?Hs; cbn [negb];
      rewrite String.eqb_refl; reflexivity.
  - intros H; injection H as <-. cbn. now rewrite Ep.
Qed.

Lemma timers_add_observers n p0 :
  line_items_node p0 = true -> theme_defined p0 = true -> match_placeholder (total_format p0) <> None ->
  observers (fold_left handle (repeat ThemeCartChangeTimer n) p0) = (n + observers p0)%nat.
Proof.
  revert p0; induction n as [|n IH]; intros p0 Hl Ht Hm; [reflexivity|].
  cbn [repeat fold_left handle].
  destruct (initialize_adds_observer p0 Hl Ht Hm) as (Ho & Hl' & Hf & Ht').
  rewrite IH, Ho; [lia | exact Hl' | exact Ht' |]. unfold total_format in *. now rewrite Hf.
Qed.

(** ** Theorems *)

(** C6. The total is the sum of the prices: when every line item carrying
    both attributes holds an integer written by the template, the total is
    the sum of those integers; elements lacking [data-cart-item-line-total]
    do not count. *)
Theorem line_total_sum_prices (cs : list Z) (others : list (option string)) :
  line_total_sum (map (fun c => mk_item true (Some (int_str c))) cs
                  ++ map (mk_item false) others) = fold_right Z.add 0%Z cs.
Proof.
  unfold line_total_sum, selected_prices. rewrite flat_map_app.
  replace (flat_map _ (map (mk_item false) others)) with (@nil string)
    by (induction others; simpl; auto).
  rewrite app_nil_r. induction cs as [|c cs IH]; [reflexivity|].
  cbn [map flat_map has_line_total discounted_price app fold_left fold_right].
  rewrite fold_sum_acc, IH. unfold add_price. rewrite parse_float_int_str. lia.
Qed.

(** C7. [updateCartTotal] throws exactly when the footer exists and
    either the global [theme] does not exist (the ReferenceError of line
    23) or the money format has no placeholder (the TypeError of
    [formatMoney]); without a footer it returns before reading [theme]. *)
Theorem update_cart_total_throws (p : page) :
  update_cart_total p = None <->
  footer p <> None /\ (theme_defined p = false \/ match_placeholder (total_format p) = None).
Proof.
  unfold update_cart_total.
  destruct (footer p) as [html|]; [|split; [discriminate | intros [H _]; congruence]].
  destruct (theme_defined p) eqn:Et; cbn [negb].
  - split.
    + intros H. split; [discriminate|]. right.
      destruct (match_placeholder (total_format p)) eqn:E; [|reflexivity].
      exfalso. destruct (format_money_some (Some (line_total_sum (items p))) (total_format p))
        as [f Hf]; [apply total_format_nonempty | congruence |].
      unfold total_format in *. rewrite Hf in H. destruct (String.eqb html f); discriminate.
    + intros [_ [Hd|Hm]]; [discriminate|]. now rewrite format_money_no_placeholder.
  - split; [intros _; split; [discriminate | now left] | reflexivity].
Qed.

(** C8. Convergence: when the formatted total survives the innerHTML round
    trip, an observer round triggered by the footer write does not write
    again, so the observer loop stops after one write. *)
Theorem feedback_terminates (p p1 : page) (f : string) :
  format_money (Some (line_total_sum (items p))) (total_format p) = Some f ->
  serialize f = f -> feedback p p1 -> ~ exists p2, feedback p1 p2.
Proof.
  intros Hf Hs [_ [Hu _]] [p2 [_ [Hu2 Hw]]].
  rewrite (update_stable p p1 f Hf Hs Hu) in Hu2. injection Hu2 as <-. cbn in Hw. lia.
Qed.

(** C9. Divergence: when the footer is inside the observed [[data-line-items]]
    subtree, does not yet show the total, and the formatted total does not
    survive the innerHTML round trip (markup the parser normalises), every
    write triggers the observer, which writes again: an infinite sequence of
    observer rounds. *)
Theorem feedback_diverges (p : page) (html f : string) :
  footer_observed p = true -> theme_defined p = true -> footer p = Some html -> html <> f ->
  format_money (Some (line_total_sum (items p))) (total_format p) = Some f ->
  serialize f <> f -> infseq feedback p.
Proof.
  intros Ho Ht Hfoot Hne Hf Hs.
  apply (infseq_invariant _ (fun x => same_config p x /\ exists h, footer x = Some h /\ h <> f)).
  - split; [apply same_config_refl | eauto].
  - intros x [Hc [h [Hx Hh]]].
    pose proof (same_format_update p x Hc) as Hfx. rewrite Hf in Hfx.
    exists (with_footer (count_call x) (Some (serialize f))).
    assert (Hu : update_cart_total x = Some (with_footer (count_call x) (Some (serialize f)))).
    { unfold update_cart_total. rewrite Hx.
      destruct Hc as (_ & _ & _ & _ & _ & Htx). rewrite Htx, Ht. cbn [negb]. rewrite Hfx.
      destruct (String.eqb_spec h f); [contradiction | reflexivity]. }
    destruct Hc as (Hi & Hm & Hl & Hobs & Hobv & Htd).
    split; [split; [rewrite Hobs; exact Ho | split; [exact Hu | reflexivity]]|].
    split; [repeat split; assumption|]. exists (serialize f). split; [reflexivity | exact Hs].
Qed.

(** C10. Observers accumulate: after [DOMContentLoaded] and [n]
    [theme:cart:change] timers, [n + 1] more observers watch the line items,
    and one mutation batch then calls [updateCartTotal] once per observer. *)
Theorem observers_accumulate (p : page) (n : nat) :
  line_items_node p = true -> theme_defined p = true -> match_placeholder (total_format p) <> None ->
  let q := run_events p (DOMContentLoaded :: repeat ThemeCartChangeTimer n) in
  observers q = (S n + observers p)%nat /\
  update_calls (handle q Mutations) = (S n + observers p + update_calls q)%nat.
Proof.
  intros Hn Ht Hm q.
  assert (Hq : observers q = (S n + observers p)%nat).
  { unfold q, run_events. cbn [fold_left handle].
    destruct (initialize_adds_observer p Hn Ht Hm) as (Ho & Hl & Hf & Ht').
    rewrite timers_add_observers, Ho;
      [lia | exact Hl | exact Ht' | unfold total_format in *; now rewrite Hf]. }
  split; [exact Hq|]. cbn [handle]. unfold notify_observers.
  rewrite (proj1 (iter_run_update _ _)), Hq. lia.
Qed.

End WithSerializer.

(** ** Witnesses *)

(** Two line items of 12.34 and 0.66, the footer showing a stale total. *)
Definition sample_page (fmt : option string) (observed : bool) : page :=
  mk_page (Some "$0.00") [mk_item true (Some "1234"); mk_item true (Some "66")] true fmt
          true observed 0 0 0.

(** Plain text survives innerHTML unchanged. *)
Definition plain_text (s : string) : string := s.

(** A character reference is decoded by the parser: "&#36;" reads back as "$". *)
Definition decode_dollar (s : string) : string := replace_first "&#36;" "$" s.

Lemma feedback_terminates_witness :
  format_money (Some (line_total_sum (items (sample_page None true))))
    (total_format (sample_page None true)) = Some "$13.00" /\
  plain_text "$13.00" = "$13.00" /\
  feedback plain_text (sample_page None true)
    (with_footer (count_call (sample_page None true)) (Some "$13.00")) /\
  ~ exists p2, feedback plain_text
      (with_footer (count_call (sample_page None true)) (Some "$13.00")) p2.
Proof.
  assert (Hf : format_money (Some (line_total_sum (items (sample_page None true))))
                 (total_format (sample_page None true)) = Some "$13.00") by (vm_compute; reflexivity).
  assert (Hfb : feedback plain_text (sample_page None true)
                  (with_footer (count_call (sample_page None true)) (Some "$13.00")))
    by (split; [reflexivity | split; [vm_compute; reflexivity | reflexivity]]).
  split; [exact Hf|]. split; [reflexivity|]. split; [exact Hfb|].
  exact (feedback_terminates plain_text _ _ "$13.00" Hf eq_refl Hfb).
Defined.

Lemma feedback_diverges_witness :
  footer_observed (sample_page (Some "&#36;{{amount}}") true) = true /\
  theme_defined (sample_page (Some "&#36;{{amount}}") true) = true /\
  footer (sample_page (Some "&#36;{{amount}}") true) = Some "$0.00" /\
  "$0.00" <> "&#36;13.00" /\
  format_money (Some (line_total_sum (items (sample_page (Some "&#36;{{amount}}") true))))
    (total_format (sample_page (Some "&#36;{{amount}}") true)) = Some "&#36;13.00" /\
  decode_dollar "&#36;13.00" <> "&#36;13.00" /\
  infseq (feedback decode_dollar) (sample_page (Some "&#36;{{amount}}") true).
Proof.
  assert (H1 : "$0.00" <> "&#36;13.00") by discriminate.
  assert (H2 : format_money (Some (line_total_sum (items (sample_page (Some "&#36;{{amount}}") true))))
    (total_format (sample_page (Some "&#36;{{amount}}") true)) = Some "&#36;13.00")
    by (vm_compute; reflexivity).
  assert (H3 : decode_dollar "&#36;13.00" <> "&#36;13.00") by (vm_compute; discriminate).
  split; [reflexivity|]. split; [reflexivity|]. split; [reflexivity|]. split; [exact H1|].
  split; [exact H2|]. split; [exact H3|].
  exact (feedback_diverges decode_dollar (sample_page (Some "&#36;{{amount}}") true) "$0.00" "&#36;13.00" eq_refl eq_refl eq_refl H1 H2 H3).
Defined.

Lemma observers_accumulate_witness :
  line_items_node (sample_page None false) = true /\
  theme_defined (sample_page None false) = true /\
  match_placeholder (total_format (sample_page None false)) <> None /\
  let q := run_events plain_text (sample_page None false)
             (DOMContentLoaded :: repeat ThemeCartChangeTimer 2) in
  observers q = 3%nat /\
  update_calls (handle plain_text q Mutations) = (3 + update_calls q)%nat.
Proof.
  assert (Hm : match_placeholder (total_format (sample_page None false)) <> None)
    by (vm_compute; discriminate).
  split; [reflexivity|]. split; [reflexivity|]. split; [exact Hm|].
  exact (observers_accumulate plain_text (sample_page None false) 2 eq_refl eq_refl Hm).
Defined.

End CartTotal.
