(* ===== verification/TieredPricing.v ===== *)
(** * Tiered price preservation (cart-tiered-pricing.js)

    Module [Tiered] translates the whole script
    (src/assets/cart-tiered-pricing.js): its own [formatMoney] (lines
    34-48), which substitutes the literal "{{amount}}", deletes the first
    ".00" and appends the currency code; the [MutationObserver] callback of
    lines 12-22, which restores the formatted price whenever the element's
    trimmed text differs from it; and [preserveTieredPricing] (lines 5-31),
    which attaches one more observer to every line-item total each time it
    runs. The text an element shows after [innerHTML = s] is a parameter
    [html_text] of the Section (the identity on plain text). The theorems
    give the formatted price, show that the restore loop stops after one
    write when the formatted price survives [innerHTML] and [trim()], and
    runs forever otherwise. *)

From Stdlib Require Import String Ascii ZArith NArith List Bool Lia.
From S2P Require Import Prelude JsRuntime MoneyFormat.
Import ListNotations.
Open Scope string_scope.
Open Scope cart_scope.

Module Tiered.

(** [window.theme] as the script reads it. *)
Record theme := mk_theme {
  theme_present : bool;                 (** [window.theme] is defined *)
  theme_money_format : option string;   (** [window.theme.moneyFormat] *)
  theme_currency_code : option string;  (** [window.theme.currencyCode] *)
  theme_currency_enable : bool          (** [window.theme.settings] is defined and
                                            [currency_code_enable] is truthy *)
}.

Definition truthy_str (o : option string) : option string :=
  match o with Some (String _ _ as s) => Some s | _ => None end.

(** [formatMoney(cents)] (lines 34-48) on the attribute string: [parseFloat],
    the format and code with their defaults, the two replacements, and the
    currency code when enabled. *)
Definition format_money (th : theme) (cents : string) : string :=
  let money := parse_float_cents cents in
  let format := if theme_present th then
                  match truthy_str (theme_money_format th) with
                  | Some f => f | None => "${{amount}}" end
                else "${{amount}}" in
  let currency_code := if theme_present th then
                         match truthy_str (theme_currency_code th) with
                         | Some c => c | None => "" end
                       else "" in
  let currency_enabled := theme_present th && theme_currency_enable th in
  let formatted := replace_first "{{amount}}" (to_fixed Prec2 money) format in
  let formatted := replace_first ".00" "" formatted in
  match currency_enabled, currency_code with
  | true, String _ _ => formatted ++ " " ++ currency_code
  | _, _ => formatted
  end.

(** A [[data-cart-item-line-total][data-discounted-price]] candidate. *)
Record elem := mk_elem {
  has_line_total : bool;          (** carries [data-cart-item-line-total] *)
  discounted : option string;     (** [data-discounted-price] *)
  text : string;                  (** [textContent] *)
  elem_observers : nat;           (** observers attached to the element *)
  elem_writes : nat               (** assignments to its innerHTML *)
}.

(** The record types of line 14. *)
Inductive mutation_type := ChildList | CharacterData | Attributes.

Section WithHtml.

(** [el.innerHTML = s; el.textContent]: the text the parsed string shows. *)
Variable html_text : string -> string.

(** [element.innerHTML = formatMoney(currentPrice)]. *)
Definition write_price (e : elem) (f : string) : elem :=
  mk_elem (has_line_total e) (discounted e) (html_text f) (elem_observers e) (S (elem_writes e)).

(** The check of lines 16-19 for one record. *)
Definition restore_once (th : theme) (e : elem) (m : mutation_type) : elem :=
  match m with
  | ChildList | CharacterData =>
      match truthy_str (discounted e) with
      | Some current =>
          let f := format_money th current in
          if String.eqb (js_trim (text e)) f then e else write_price e f
      | None => e
      end
  | Attributes => e
  end.

(** The observer callback (lines 12-22): [mutations.forEach]. *)
Definition observer_callback (th : theme) (e : elem) (ms : list mutation_type) : elem :=
  fold_left (restore_once th) ms e.

(** Every observer of the element receives the batch. *)
Definition notify (th : theme) (e : elem) (ms : list mutation_type) : elem :=
  Nat.iter (elem_observers e) (fun x => observer_callback th x ms) e.

(** [preserveTieredPricing()] (lines 5-31): one more observer on each
    element carrying both attributes. *)
Definition selected (e : elem) : bool :=
  has_line_total e && match discounted e with Some _ => true | None => false end.

Definition observe (e : elem) : elem :=
  mk_elem (has_line_total e) (discounted e) (text e) (S (elem_observers e)) (elem_writes e).

Definition preserve_tiered_pricing (es : list elem) : list elem :=
  map (fun e => if selected e then observe e else e) es.

(** Lines 51-60: the initial run, then a run 100 ms after every
    [theme:cart:change]. *)
Definition after_cart_changes (es : list elem) (n : nat) : list elem :=
  Nat.iter n preserve_tiered_pricing (preserve_tiered_pricing es).

(** One restore triggered by the previous write: the element receives the
    [childList] record its own write produced, and writes again. *)
Definition restore_step (th : theme) (e e' : elem) : Prop :=
  e' = restore_once th e ChildList /\ elem_writes e' = S (elem_writes e).

(** ** Lemmas *)

Lemma to_fixed2_shape c :
  to_fixed_cents Prec2 c =
  (sign_str c ++ dec_N (Z.to_N (Z.abs c) / 100)) ++ String "."%char (pad2 (Z.to_N (Z.abs c) mod 100)).
Proof. unfold to_fixed_cents. now rewrite str_app_assoc. Qed.

Lemma mod100_lt a : (a mod 100 < 100)%N.
Proof. apply N.mod_lt. lia. Qed.

Lemma to_fixed2_no_dollar c : has_char "$"%char (to_fixed_cents Prec2 c) = false.
Proof.
  rewrite to_fixed2_shape, !has_char_app, sign_no_char by reflexivity. cbn [has_char].
  rewrite !has_char_digits; auto using all_digits_dec_N, all_digits_pad2, mod100_lt.
Qed.

(** The [replace('.00', '')] of line 41 on the output of [toFixed(2)]: the
    first ".00" is the decimal part when the cents are zero. *)
Lemma find_split_dot00 m :
  (m < 100)%N ->
  find_split ".00" (String "."%char (pad2 m)) = if (m =? 0)%N then Some ("", "") else None.
Proof.
  intros Hm. destruct (N.eqb_spec m 0) as [->|Hne]; [reflexivity|].
  cbn [find_split]. destruct (String.prefix ".00" (String "."%char (pad2 m))) eqn:E.
  - exfalso. apply prefix_correct in E. cbn in E. unfold pad2 in E. cbn in E.
    injection E as E1 E2.
    assert (Hv : digits_value (pad2 m) = digits_value "00") by (unfold pad2; now rewrite E1, E2).
    rewrite digits_value_pad2 in Hv by exact Hm. injection Hv. exact Hne.
  - rewrite (find_split_absent "."%char "00" (pad2 m)); [reflexivity|].
    apply has_char_digits; [reflexivity | now apply all_digits_pad2].
Qed.

Lemma replace_amount_default c :
  replace_first "{{amount}}" (to_fixed Prec2 (Some c)) "${{amount}}" = "$" ++ to_fixed_cents Prec2 c.
Proof.
  unfold replace_first. cbn [find_split String.prefix]. simpl.
  rewrite get_substitution_plain by apply to_fixed2_no_dollar. now rewrite str_app_nil_r.
Qed.

(** ** Theorems *)

(** C11. With the default format "${{amount}}" and no currency code, the
    tiered price of a template integer is "$", the sign and the whole
    units, followed by "." and two cent digits only when the cents are not
    zero: no thousands separator, and ".00" is dropped. *)
Theorem tiered_format_default (th : theme) (c : Z) :
  (theme_present th = false \/ truthy_str (theme_money_format th) = None) ->
  theme_present th && theme_currency_enable th = false ->
  format_money th (int_str c) =
  "$" ++ sign_str c ++ dec_N (Z.to_N (Z.abs c) / 100) ++
  (if (Z.to_N (Z.abs c) mod 100 =? 0)%N then "" else String "."%char (pad2 (Z.to_N (Z.abs c) mod 100))).
Proof.
  intros Hfmt Hcur. unfold format_money. rewrite parse_float_int_str.
  replace (if theme_present th then _ else "${{amount}}") with "${{amount}}"
    by (destruct Hfmt as [-> | H]; [reflexivity | rewrite H; now destruct (theme_present th)]).
  rewrite replace_amount_default, Hcur.
  set (a := Z.to_N (Z.abs c)). set (pre := "$" ++ sign_str c ++ dec_N (a / 100)).
  assert (Hpre : has_char "."%char pre = false).
  { unfold pre. cbn [String.append has_char]. rewrite has_char_app, sign_no_char by reflexivity.
    now rewrite has_char_digits by (reflexivity || apply all_digits_dec_N). }
  replace ("$" ++ to_fixed_cents Prec2 c) with (pre ++ String "."%char (pad2 (a mod 100)))
    by (unfold pre; rewrite to_fixed2_shape; cbn [String.append]; repeat rewrite str_app_assoc; reflexivity).
  unfold replace_first. rewrite find_split_skip, find_split_dot00 by (exact Hpre || apply mod100_lt).
  destruct (a mod 100 =? 0)%N; unfold pre; cbn [get_substitution];
    repeat rewrite ?str_app_nil_r, ?str_app_assoc; reflexivity.
Qed.

(** C12. A merchant format whose placeholder is not written exactly
    "{{amount}}" (spaces inside the braces, or another placeholder such as
    "{{amount_with_comma_separator}}") is shown as it is: the price never
    appears. *)
Theorem tiered_placeholder_kept (th : theme) (fmt cents : string) :
  theme_present th = true -> truthy_str (theme_money_format th) = Some fmt ->
  find_split "{{amount}}" fmt = None -> find_split ".00" fmt = None ->
  theme_currency_enable th = false ->
  format_money th cents = fmt.
Proof.
  intros Hp Hf H1 H2 Hc. unfold format_money. rewrite Hp, Hf, Hc.
  unfold replace_first. rewrite H1, H2. reflexivity.
Qed.

(** The restore callback leaves an element alone once its trimmed text is
    the formatted price. *)
Lemma restore_once_stable th e cur :
  truthy_str (discounted e) = Some cur ->
  js_trim (html_text (format_money th cur)) = format_money th cur ->
  restore_once th (restore_once th e ChildList) ChildList = restore_once th e ChildList.
Proof.
  intros Hd Ht. cbn [restore_once]. rewrite Hd.
  destruct (String.eqb_spec (js_trim (text e)) (format_money th cur)) as [E|E].
  - rewrite Hd. now rewrite (proj2 (String.eqb_eq _ _) E).
  - change (discounted (write_price e (format_money th cur))) with (discounted e).
    change (text (write_price e (format_money th cur))) with (html_text (format_money th cur)).
    rewrite Hd, Ht, String.eqb_refl. reflexivity.
Qed.

(** C13. Convergence: when the formatted price survives [innerHTML] and
    [trim()], the record produced by a restore does not cause another
    write: the loop stops after one write. *)
Theorem restore_terminates (th : theme) (e e1 : elem) (cur : string) :
  truthy_str (discounted e) = Some cur ->
  js_trim (html_text (format_money th cur)) = format_money th cur ->
  restore_step th e e1 -> ~ exists e2, restore_step th e1 e2.
Proof.
  intros Hd Ht [-> _] [e2 [He2 Hw]].
  rewrite (restore_once_stable th e cur Hd Ht) in He2. subst e2. lia.
Qed.

(** C14. Divergence: when the formatted price does not survive [innerHTML]
    and [trim()] (markup in the money format, or spaces around it), every
    restore writes, its own [childList] record triggers the callback again,
    and the restore loop never ends. *)
Theorem restore_diverges (th : theme) (e : elem) (cur : string) :
  truthy_str (discounted e) = Some cur ->
  js_trim (text e) <> format_money th cur ->
  js_trim (html_text (format_money th cur)) <> format_money th cur ->
  infseq (restore_step th) e.
Proof.
  intros Hd Hne Hs.
  apply (infseq_invariant _ (fun x => discounted x = discounted e /\
                                      js_trim (text x) <> format_money th cur)).
  - split; [reflexivity | exact Hne].
  - intros x [Hx Htx]. exists (write_price x (format_money th cur)).
    assert (Hr : restore_once th x ChildList = write_price x (format_money th cur)).
    { cbn [restore_once]. rewrite Hx, Hd.
      destruct (String.eqb_spec (js_trim (text x)) (format_money th cur)); [contradiction | reflexivity]. }
    split; [split; [symmetry; exact Hr | reflexivity]|].
    split; [exact Hx | exact Hs].
Qed.

Definition preserve_one (e : elem) : elem := if selected e then observe e else e.

Lemma iter_map {A : Type} (f : A -> A) k (l : list A) :
  Nat.iter k (map f) l = map (Nat.iter k f) l.
Proof.
  induction k as [|k IH]; simpl; [now rewrite map_id|].
  rewrite IH, map_map. reflexivity.
Qed.

Lemma selected_preserve_one e : selected (preserve_one e) = selected e.
Proof. unfold preserve_one. destruct (selected e) eqn:E; [exact E | exact E]. Qed.

Lemma observers_preserve_one e :
  elem_observers (preserve_one e) = if selected e then S (elem_observers e) else elem_observers e.
Proof. unfold preserve_one. now destruct (selected e). Qed.

Lemma iter_preserve_one k e :
  selected (Nat.iter k preserve_one e) = selected e /\
  elem_observers (Nat.iter k preserve_one e) =
  (if selected e then k + elem_observers e else elem_observers e)%nat.
Proof.
  induction k as [|k [IH1 IH2]]; [simpl; now destruct (selected e)|].
  rewrite Nat.iter_succ, selected_preserve_one, observers_preserve_one, IH1, IH2.
  split; [reflexivity | destruct (selected e); lia].
Qed.

(** C15. Observers accumulate: after the initial run and [n] cart changes,
    every line-item total carrying both attributes has [n + 1] more
    observers, each of which runs the restore callback on every record;
    other elements have none added. *)
Theorem tiered_observers_accumulate (es : list elem) (n : nat) :
  map elem_observers (after_cart_changes es n) =
  map (fun e => if selected e then (S n + elem_observers e)%nat else elem_observers e) es.
Proof.
  unfold after_cart_changes. rewrite <- Nat.iter_succ_r.
  replace preserve_tiered_pricing with (map preserve_one) by reflexivity.
  rewrite iter_map, map_map. apply map_ext. intros e. apply iter_preserve_one.
Qed.

End WithHtml.

(** ** Witnesses *)

Definition no_theme : theme := mk_theme false None None false.

(** Plain text: the element shows the string assigned to innerHTML. *)
Definition plain_html (s : string) : string := s.

Definition sample_elem : elem := mk_elem true (Some "1200") "$9.99" 1 0.

Lemma tiered_format_default_witness :
  (theme_present no_theme = false \/ truthy_str (theme_money_format no_theme) = None) /\
  theme_present no_theme && theme_currency_enable no_theme = false /\
  format_money no_theme (int_str 123400) = "$1234".
Proof.
  assert (H1 : theme_present no_theme = false \/ truthy_str (theme_money_format no_theme) = None)
    by (left; reflexivity).
  split; [exact H1|]. split; [reflexivity|].
  rewrite (tiered_format_default no_theme 123400 H1 eq_refl). reflexivity.
Defined.

Definition spaced_theme : theme := mk_theme true (Some "{{ amount }} EUR") None false.

Lemma tiered_placeholder_kept_witness :
  theme_present spaced_theme = true /\
  truthy_str (theme_money_format spaced_theme) = Some "{{ amount }} EUR" /\
  find_split "{{amount}}" "{{ amount }} EUR" = None /\
  find_split ".00" "{{ amount }} EUR" = None /\
  theme_currency_enable spaced_theme = false /\
  format_money spaced_theme "1200" = "{{ amount }} EUR".
Proof.
  assert (H3 : find_split "{{amount}}" "{{ amount }} EUR" = None) by (vm_compute; reflexivity).
  assert (H4 : find_split ".00" "{{ amount }} EUR" = None) by (vm_compute; reflexivity).
  split; [reflexivity|]. split; [reflexivity|]. split; [exact H3|]. split; [exact H4|].
  split; [reflexivity|].
  exact (tiered_placeholder_kept spaced_theme "{{ amount }} EUR" "1200" eq_refl eq_refl H3 H4 eq_refl).
Defined.

Lemma restore_terminates_witness :
  truthy_str (discounted sample_elem) = Some "1200" /\
  js_trim (plain_html (format_money no_theme "1200")) = format_money no_theme "1200" /\
  restore_step plain_html no_theme sample_elem (write_price plain_html sample_elem "$12") /\
  ~ exists e2, restore_step plain_html no_theme (write_price plain_html sample_elem "$12") e2.
Proof.
  assert (H2 : js_trim (plain_html (format_money no_theme "1200")) = format_money no_theme "1200")
    by (vm_compute; reflexivity).
  assert (H3 : restore_step plain_html no_theme sample_elem (write_price plain_html sample_elem "$12"))
    by (split; [vm_compute; reflexivity | reflexivity]).
  split; [reflexivity|]. split; [exact H2|]. split; [exact H3|].
  exact (restore_terminates plain_html no_theme sample_elem _ "1200" eq_refl H2 H3).
Defined.

(** A money format with a leading space: [trim()] removes it, so the text
    never equals the formatted price. *)
Definition padded_theme : theme := mk_theme true (Some " ${{amount}}") None false.

Lemma restore_diverges_witness :
  truthy_str (discounted sample_elem) = Some "1200" /\
  js_trim (text sample_elem) <> format_money padded_theme "1200" /\
  js_trim (plain_html (format_money padded_theme "1200")) <> format_money padded_theme "1200" /\
  infseq (restore_step plain_html padded_theme) sample_elem.
Proof.
  assert (H2 : js_trim (text sample_elem) <> format_money padded_theme "1200")
    by (vm_compute; discriminate).
  assert (H3 : js_trim (plain_html (format_money padded_theme "1200")) <> format_money padded_theme "1200")
    by (vm_compute; discriminate).
  split; [reflexivity|]. split; [exact H2|]. split; [exact H3|].
  exact (restore_diverges plain_html padded_theme sample_elem "1200" eq_refl H2 H3).
Defined.

End Tiered.
