(* ===== verification/DrawerLock.v ===== *)
(** * The quantity-input lock of the cart drawer (custom.js)

    Module [DrawerLock] models the [interactingInputs] set of the second
    IIFE of src/assets/custom.js (line 82) with the three capture listeners
    of [initCartDrawerPriceUpdates] (lines 204-230): [focusin] and [input]
    add the key of the quantity input, [focusout] deletes it 500 ms later
    through [setTimeout]. The state is a record with the set (a [gset]), the
    key of the focused quantity input ([document.activeElement]), the clock
    and the pending timers; the browser events are a step function. The
    quantity write of [applyPriceUpdates] (lines 161-168) is [update_qty],
    on a [gmap] from keys to input values. The theorems show that a focused
    or locked input is never overwritten, that the write is exact and
    idempotent, that a key stays locked as long as its input is not blurred,
    that a blur releases it after 500 ms, and that the release timer is
    never cancelled: a focus or input within 500 ms of a blur does not keep
    the key locked past that blur's timer. *)

From stdpp Require Import gmap strings.
From Stdlib Require Import String ZArith Lia.
From S2P Require Import Prelude JsRuntime.
Open Scope string_scope.

Module DrawerLock.

(** The delay of line 219. *)
Definition unlock_delay : nat := 500.

Record lock_state := mk_lock {
  interacting : gset string;        (** [interactingInputs] *)
  active : option string;           (** key of the focused quantity input, if any *)
  now : nat;                        (** milliseconds *)
  timers : list (nat * string)      (** pending [interactingInputs.delete(key)], with due time *)
}.

(** Browser events that reach the listeners. The target is the key of the
    [input[data-update-cart]] that [e.target.closest] finds, [None] when
    the event comes from another element. [Wait ms] lets time pass and runs
    the timers that fall due, in the order they were set. *)
Inductive ui_event :=
  | FocusIn (target : option string)
  | FocusOut (target : option string)
  | InputEv (target : option string)
  | Wait (ms : nat).

(** [interactingInputs.add(key)] when the target is a quantity input
    (lines 204-210 and 224-230). *)
Definition add_key (target : option string) (s : gset string) : gset string :=
  match target with Some k => {[k]} ∪ s | None => s end.

(** Timers that fall due at [t], run in order: each deletes its key. *)
Definition fire_due (t : nat) (ts : list (nat * string)) (s : gset string) : gset string :=
  fold_left (fun acc '(d, k) => if Nat.leb d t then acc ∖ {[k]} else acc) ts s.

Definition step (s : lock_state) (e : ui_event) : lock_state :=
  match e with
  | FocusIn target =>
      mk_lock (add_key target (interacting s)) target (now s) (timers s)
  | FocusOut target =>
      mk_lock (interacting s) None (now s)
        (match target with
         | Some k => timers s ++ [(now s + unlock_delay, k)]
         | None => timers s
         end)
  | InputEv target =>
      mk_lock (add_key target (interacting s)) (active s) (now s) (timers s)
  | Wait ms =>
      let t := now s + ms in
      mk_lock (fire_due t (timers s) (interacting s)) (active s) t
        (filter (fun '(d, _) => negb (Nat.leb d t)) (timers s))
  end.

Definition run (s : lock_state) (evs : list ui_event) : lock_state := fold_left step evs s.

(** The quantity part of [applyPriceUpdates] for one item (lines 161-168):
    when the input exists and [parseInt(qtyInput.value) !== item.quantity],
    write the quantity unless the input is focused or locked. *)
Definition update_qty (s : lock_state) (inputs : gmap string string) (key : string)
    (quantity : Z) : gmap string string :=
  match inputs !! key with
  | Some v =>
      if match parse_int v with Some n => Z.eqb n quantity | None => false end then inputs
      else if bool_decide (active s = Some key) || bool_decide (key ∈ interacting s) then inputs
      else <[key := int_str quantity]> inputs
  | None => inputs
  end.

(** Total time waited by a sequence of events. *)
Fixpoint waited (evs : list ui_event) : nat :=
  match evs with
  | [] => 0
  | Wait ms :: r => ms + waited r
  | _ :: r => waited r
  end.

(** The events that lock the key [k] again. *)
Definition relocks (k : string) (e : ui_event) : bool :=
  match e with
  | FocusIn (Some k') | InputEv (Some k') => bool_decide (k' = k)
  | _ => false
  end.

(** ** Lemmas *)

Lemma fire_due_subset t ts (S : gset string) : fire_due t ts S ⊆ S.
Proof.
  unfold fire_due. revert S; induction ts as [|[d k'] ts IH]; intros S; simpl; [set_solver|].
  destruct (Nat.leb d t); [etransitivity; [apply IH | set_solver] | apply IH].
Qed.

Lemma fire_due_removes t ts (S : gset string) d k :
  (d, k) ∈ ts -> d <= t -> k ∉ fire_due t ts S.
Proof.
  unfold fire_due. revert S; induction ts as [|[d' k'] ts IH]; intros S Hin Hd; [set_solver|].
  simpl. apply elem_of_cons in Hin as [Heq|Hin].
  - injection Heq as <- <-. rewrite (proj2 (Nat.leb_le d t) Hd).
    intros Hk. apply (fire_due_subset t ts) in Hk. set_solver.
  - now apply IH.
Qed.

Lemma fire_due_keep t ts (S : gset string) k :
  (forall d, (d, k) ∉ ts) -> k ∈ S -> k ∈ fire_due t ts S.
Proof.
  unfold fire_due. revert S; induction ts as [|[d k'] ts IH]; intros S Hno Hk; simpl; [exact Hk|].
  apply IH; [intros d' Hd'; apply (Hno d'); set_solver|].
  destruct (Nat.leb d t); [|exact Hk].
  assert (k' <> k) by (intros ->; apply (Hno d); set_solver). set_solver.
Qed.

Lemma add_key_mono target (S : gset string) : S ⊆ add_key target S.
Proof. destruct target; simpl; set_solver. Qed.

(** ** Theorems *)

(** The guard of the quantity write. *)
Lemma update_qty_guarded (s : lock_state) (inputs : gmap string string)
    (key : string) (q : Z) (k : string) :
  active s = Some k \/ k ∈ interacting s ->
  update_qty s inputs key q !! k = inputs !! k.
Proof.
  intros Hk. unfold update_qty. destruct (inputs !! key) as [v|]; [|reflexivity].
  destruct (match parse_int v with Some n => Z.eqb n q | None => false end); [reflexivity|].
  destruct (bool_decide (active s = Some key) || bool_decide (key ∈ interacting s)) eqn:E;
    [reflexivity|].
  apply orb_false_iff in E as [E1 E2].
  apply bool_decide_eq_false in E1, E2.
  rewrite lookup_insert_ne; [reflexivity|].
  intros ->. destruct Hk as [Hk|Hk]; [exact (E1 Hk) | exact (E2 Hk)].
Qed.

(** C16. Safety of the quantity write: an input that is focused, or whose
    key is in [interactingInputs], keeps its value whatever item is
    applied. *)
Theorem qty_guard_safety (s : lock_state) (inputs : gmap string string)
    (key : string) (q : Z) (k : string) :
  active s = Some k \/ k ∈ interacting s ->
  update_qty s inputs key q !! k = inputs !! k.
Proof. apply update_qty_guarded. Qed.

(** C17. The quantity write: an existing input that is neither focused nor
    locked and does not already read the quantity is set to the decimal
    quantity, and nothing else changes. *)
Theorem update_qty_writes (s : lock_state) (inputs : gmap string string)
    (key v : string) (q : Z) :
  inputs !! key = Some v -> parse_int v <> Some q ->
  active s <> Some key -> key ∉ interacting s ->
  update_qty s inputs key q = <[key := int_str q]> inputs.
Proof.
  intros Hv Hp Ha Hi. unfold update_qty. rewrite Hv.
  replace (match parse_int v with Some n => Z.eqb n q | None => false end) with false
    by (destruct (parse_int v) as [n|]; [symmetry; apply Z.eqb_neq; congruence | reflexivity]).
  rewrite !bool_decide_eq_false_2 by assumption. reflexivity.
Qed.

(** The quantity write is idempotent: applying the same item twice gives
    the inputs of applying it once, because [parseInt] reads back the
    written quantity. *)
Lemma update_qty_idem (s : lock_state) (inputs : gmap string string)
    (key : string) (q : Z) :
  update_qty s (update_qty s inputs key q) key q = update_qty s inputs key q.
Proof.
  unfold update_qty at 2 3. destruct (inputs !! key) as [v|] eqn:Hv; [|now unfold update_qty; rewrite Hv].
  destruct (match parse_int v with Some n => Z.eqb n q | None => false end) eqn:Ep;
    [unfold update_qty; now rewrite Hv, Ep|].
  destruct (bool_decide (active s = Some key) || bool_decide (key ∈ interacting s)) eqn:Eg;
    [unfold update_qty; now rewrite Hv, Ep, Eg|].
  unfold update_qty. rewrite lookup_insert_eq, parse_int_int_str, Z.eqb_refl. reflexivity.
Qed.

(** The write either leaves the inputs alone or sets the key's value. *)
Lemma update_qty_shape (s : lock_state) (inputs : gmap string string) (key : string) (q : Z) :
  update_qty s inputs key q = inputs \/ update_qty s inputs key q = <[key := int_str q]> inputs.
Proof.
  unfold update_qty. destruct (inputs !! key); [|now left].
  destruct (match _ with Some n => _ | None => false end); [now left|].
  destruct (_ || _); [now left | now right].
Qed.

(** The write at [key] reads and writes only the value at [key]. *)
Lemma update_qty_other (s : lock_state) (inputs : gmap string string) (key k : string) (q : Z) :
  key <> k -> update_qty s inputs key q !! k = inputs !! k.
Proof.
  intros Hne. destruct (update_qty_shape s inputs key q) as [->| ->]; [reflexivity|].
  now rewrite lookup_insert_ne.
Qed.

(** The decision of the write depends only on the value at [key]. *)
Lemma update_qty_decides (s : lock_state) (i1 i2 : gmap string string) (key : string) (q : Z) :
  i1 !! key = i2 !! key ->
  (update_qty s i1 key q = i1 /\ update_qty s i2 key q = i2) \/
  (update_qty s i1 key q = <[key := int_str q]> i1 /\ update_qty s i2 key q = <[key := int_str q]> i2).
Proof.
  intros H. unfold update_qty. rewrite <- H. destruct (i1 !! key); [|tauto].
  destruct (match _ with Some n => _ | None => false end); [tauto|].
  destruct (_ || _); tauto.
Qed.

(** Writes at different keys commute. *)
Lemma update_qty_commute (s : lock_state) (i : gmap string string) (k1 k2 : string) (q1 q2 : Z) :
  k1 <> k2 ->
  update_qty s (update_qty s i k1 q1) k2 q2 = update_qty s (update_qty s i k2 q2) k1 q1.
Proof.
  intros Hne.
  destruct (update_qty_decides s (update_qty s i k1 q1) i k2 q2) as [[-> E2]|[-> E2]];
    [now apply update_qty_other|..];
  destruct (update_qty_decides s (update_qty s i k2 q2) i k1 q1) as [[-> E1]|[-> E1]];
    try (apply update_qty_other; congruence); rewrite ?E1, ?E2; try reflexivity.
  now apply insert_insert_ne.
Qed.

(** One step other than a blur of [k] keeps [k] locked with no release
    pending. *)
Lemma step_keeps_lock (s : lock_state) (e : ui_event) (k : string) :
  k ∈ interacting s -> (forall d, (d, k) ∉ timers s) -> e <> FocusOut (Some k) ->
  k ∈ interacting (step s e) /\ (forall d, (d, k) ∉ timers (step s e)).
Proof.
  intros Hk Hno He. destruct e as [t|t|t|ms]; simpl; split.
  - now apply add_key_mono.
  - exact Hno.
  - exact Hk.
  - destruct t as [k'|]; [|exact Hno]. intros d Hd. apply elem_of_app in Hd as [Hd|Hd];
      [exact (Hno d Hd)|]. apply list_elem_of_singleton in Hd. injection Hd as _ ->. now apply He.
  - now apply add_key_mono.
  - exact Hno.
  - now apply fire_due_keep.
  - intros d Hd. apply list_elem_of_filter in Hd as [_ Hd]. exact (Hno d Hd).
Qed.

(** C18. A key stays locked while its input is not blurred: with no
    pending deletion for [k], no sequence of events without a [focusout]
    on [k] removes it, however long the wait. *)
Theorem lock_persists (s : lock_state) (evs : list ui_event) (k : string) :
  k ∈ interacting s -> (forall d, (d, k) ∉ timers s) ->
  Forall (fun e => e <> FocusOut (Some k)) evs ->
  k ∈ interacting (run s evs).
Proof.
  revert s; induction evs as [|e evs IH]; intros s Hk Hno Hall; [exact Hk|].
  apply Forall_cons in Hall as [He Hall]. destruct (step_keeps_lock s e k Hk Hno He).
  unfold run; simpl. now apply IH.
Qed.

(** The invariant that carries a pending release to its due time [T]:
    either [k] is already unlocked, or its deletion is pending at [T] and
    the clock has not reached it. *)
Definition release_pending (k : string) (T : nat) (x : lock_state) : Prop :=
  k ∉ interacting x \/ ((T, k) ∈ timers x /\ now x < T).

Lemma add_key_other k target (S : gset string) :
  relocks k (InputEv target) = false -> k ∉ S -> k ∉ add_key target S.
Proof.
  destruct target as [k'|]; simpl; [|tauto]. intros Hne%bool_decide_eq_false. set_solver.
Qed.

Lemma release_pending_step k T x e :
  relocks k e = false -> release_pending k T x ->
  release_pending k T (step x e) \/ ((k ∉ interacting (step x e)) /\ T <= now (step x e)).
Proof.
  intros Hr [Hk|[Hin Hlt]]; destruct e as [t|t|t|ms]; simpl in *.
  - left; left. apply add_key_other; [destruct t |]; assumption.
  - left; left. exact Hk.
  - left; left. now apply add_key_other.
  - left; left. intros Hf. apply fire_due_subset in Hf. exact (Hk Hf).
  - left; right. auto.
  - left; right. split; [|exact Hlt]. destruct t; [apply elem_of_app; auto | exact Hin].
  - left; right. auto.
  - destruct (Nat.leb T (now x + ms)) eqn:Ed.
    + right. split; [eapply fire_due_removes; [exact Hin|] | ]; apply Nat.leb_le in Ed; lia.
    + left; right. apply Nat.leb_gt in Ed. split; [|exact Ed].
      apply list_elem_of_filter. split; [|exact Hin]. simpl. now rewrite (proj2 (Nat.leb_gt _ _) Ed).
Qed.

Lemma release_by_due k T : forall evs x,
  Forall (fun e => relocks k e = false) evs ->
  release_pending k T x -> T <= now x + waited evs ->
  k ∉ interacting (run x evs).
Proof.
  induction evs as [|e evs IH]; intros x Hall Hp HT.
  - destruct Hp as [Hk|[_ Hlt]]; [exact Hk|]. simpl in HT. lia.
  - apply Forall_cons in Hall as [He Hall]. unfold run; simpl; fold (run (step x e) evs).
    assert (Hn : now x + waited (e :: evs) = now (step x e) + waited evs)
      by (destruct e; simpl; lia).
    destruct (release_pending_step k T x e He Hp) as [Hp'|[Hk Hle]].
    + apply IH; [exact Hall | exact Hp' | lia].
    + apply IH; [exact Hall | now left | lia].
Qed.

(** C19. Liveness of the release: after the [focusout] of [k], once 500 ms
    have passed without a [focusin] or [input] on [k], the key is no
    longer in [interactingInputs]. *)
Theorem blur_releases (s : lock_state) (k : string) (evs : list ui_event) :
  Forall (fun e => relocks k e = false) evs -> unlock_delay <= waited evs ->
  k ∉ interacting (run s (FocusOut (Some k) :: evs)).
Proof.
  intros Hall Hw. change (run s _) with (run (step s (FocusOut (Some k))) evs).
  apply (release_by_due k (now s + unlock_delay)); [exact Hall| |simpl; lia].
  right. split; [apply elem_of_app; right; now apply list_elem_of_singleton | simpl; unfold unlock_delay; lia].
Qed.

Lemma now_step x e : now (step x e) = now x + waited [e].
Proof. destruct e; simpl; lia. Qed.

(** A release timer stays pending, whatever the events, until it is due. *)
Lemma timer_pending_run k T : forall evs x,
  (T, k) ∈ timers x -> now x + waited evs < T ->
  (T, k) ∈ timers (run x evs) /\ now (run x evs) = now x + waited evs.
Proof.
  induction evs as [|e evs IH]; intros x Hin Hlt; [simpl; split; [exact Hin | lia]|].
  change (run x (e :: evs)) with (run (step x e) evs).
  assert (Hn : now x + waited (e :: evs) = now (step x e) + waited evs)
    by (rewrite now_step; destruct e; simpl; lia).
  rewrite Hn in *. apply IH; [|exact Hlt].
  destruct e as [t|t|t|ms]; simpl in *; try exact Hin.
  - destruct t; [apply elem_of_app; now left | exact Hin].
  - apply list_elem_of_filter. split; [|exact Hin].
    rewrite (proj2 (Nat.leb_gt T (now x + ms))) by lia. exact I.
Qed.

(** C20. The release timer is never cancelled: once an input is blurred,
    its key leaves [interactingInputs] 500 ms later whatever happens in
    between. In particular the user may focus the input again, type into
    it and blur it again within those 500 ms; the key is still released
    500 ms after the first blur, so less than 500 ms after the last one,
    against the intent stated at line 216. *)
Theorem blur_timer_not_cancelled (s : lock_state) (k : string) (evs : list ui_event) (w : nat) :
  waited evs < unlock_delay -> unlock_delay <= waited evs + w ->
  k ∉ interacting (run s (FocusOut (Some k) :: evs ++ [Wait w])).
Proof.
  intros H1 H2. change (run s (FocusOut (Some k) :: evs ++ [Wait w]))
    with (run (step s (FocusOut (Some k))) (evs ++ [Wait w])).
  unfold run at 1. rewrite fold_left_app. fold (run (step s (FocusOut (Some k))) evs).
  destruct (timer_pending_run k (now s + unlock_delay) evs (step s (FocusOut (Some k)))) as [Hin Hn].
  - simpl. apply elem_of_app. right. now apply list_elem_of_singleton.
  - simpl. lia.
  - remember (run (step s (FocusOut (Some k))) evs) as X eqn:HX.
    change (fold_left step [Wait w] X) with (step X (Wait w)). cbn [step interacting].
    eapply fire_due_removes; [exact Hin|]. rewrite Hn. simpl. lia.
Qed.

(** ** Witnesses *)

(** Decides a decidable proposition on closed data by evaluation. *)
Ltac eval_decide := apply (bool_decide_unpack _); vm_compute; reflexivity.

Definition focused_k : lock_state := mk_lock ∅ (Some "k") 0 [].
Definition locked_k : lock_state := mk_lock {[ "k" ]} None 0 [].
Definition typed_7 : gmap string string := {[ "k" := "7" ]}.

Lemma qty_guard_safety_witness :
  (active focused_k = Some "k" \/ "k" ∈ interacting focused_k) /\
  update_qty focused_k typed_7 "k" 2 !! "k" = typed_7 !! "k".
Proof.
  split; [left; reflexivity|].
  apply (qty_guard_safety focused_k typed_7 "k" 2 "k"). left; reflexivity.
Defined.

Lemma update_qty_writes_witness :
  typed_7 !! "k" = Some "7" /\ parse_int "7" <> Some 2%Z /\
  active (mk_lock ∅ None 0 []) <> Some "k" /\ ("k" ∉ interacting (mk_lock ∅ None 0 [])) /\
  update_qty (mk_lock ∅ None 0 []) typed_7 "k" 2 = <[ "k" := int_str 2 ]> typed_7.
Proof.
  split; [reflexivity|]. split; [vm_compute; discriminate|].
  split; [discriminate|]. split; [eval_decide|].
  apply (update_qty_writes _ _ "k" "7"); [reflexivity | vm_compute; discriminate | discriminate |
    eval_decide].
Defined.

Lemma lock_persists_witness :
  "k" ∈ interacting locked_k /\ (forall d, (d, "k") ∉ timers locked_k) /\
  "k" ∈ interacting (run locked_k [Wait 1000; FocusOut (Some "j"); Wait 600]).
Proof.
  split; [eval_decide|]. split; [intros d; eval_decide|].
  apply lock_persists; [eval_decide | intros d; eval_decide |].
  repeat constructor; discriminate.
Defined.

Lemma blur_releases_witness :
  Forall (fun e => relocks "k" e = false) [FocusIn (Some "j"); Wait 600] /\
  unlock_delay <= waited [FocusIn (Some "j"); Wait 600] /\
  "k" ∉ interacting (run locked_k [FocusOut (Some "k"); FocusIn (Some "j"); Wait 600]).
Proof.
  split; [repeat constructor|]. split; [vm_compute; lia|].
  apply blur_releases; [repeat constructor | vm_compute; lia].
Defined.

Lemma blur_timer_not_cancelled_witness :
  waited [Wait 100; FocusIn (Some "k"); InputEv (Some "k"); Wait 300; FocusOut (Some "k")] < unlock_delay /\
  unlock_delay <= waited [Wait 100; FocusIn (Some "k"); InputEv (Some "k"); Wait 300; FocusOut (Some "k")] + 100 /\
  "k" ∉ interacting (run (mk_lock ∅ None 0 [])
    (FocusOut (Some "k") :: [Wait 100; FocusIn (Some "k"); InputEv (Some "k"); Wait 300; FocusOut (Some "k")]
       ++ [Wait 100])).
Proof.
  split; [vm_compute; lia|]. split; [vm_compute; lia|].
  apply blur_timer_not_cancelled; vm_compute; lia.
Defined.

End DrawerLock.
