(* ===== verification/DrawerPrices.v ===== *)
(** * Price writes of the cart drawer (custom.js, applyPriceUpdates)

    Module [DrawerPrices] models [updatePrice] (src/assets/custom.js lines
    186-197) and [applyPriceUpdates] (lines 132-181). The document is the
    list of its elements in document order, each with its tag, its
    attributes, the attributes of its ancestors and its text; the CSS
    selectors the code builds are values of a small selector type with the
    matching rules of the attribute, class and descendant selectors it uses.
    [Intl.NumberFormat('en-US', {style: 'currency', currency})] is the
    Section variable [currency_format], applied to the currency code and
    the amount in cents. The quantity inputs are the map and the lock of
    [DrawerLock]. The theorems give the text of every element after an
    update as the last write whose selector matches it, and derive what the
    footer and the line totals show, that an original price no longer
    discounted is left stale, and that applying a cart twice changes
    nothing more. *)

From stdpp Require Import gmap strings.
From Stdlib Require Import String Ascii ZArith Lia.
From S2P Require Import Prelude JsRuntime DrawerLock.
Open Scope string_scope.

Module DrawerPrices.
Import DrawerLock.

(** ** The document and the selectors *)

Record element := mk_elem {
  tag : string;
  attrs : list (string * string);
  ancestors : list (list (string * string));  (** attributes of each ancestor *)
  text : string                               (** [textContent] *)
}.

Definition set_text (e : element) (t : string) : element :=
  mk_elem (tag e) (attrs e) (ancestors e) t.

(** [getAttribute]: the value of the first attribute with that name. *)
Fixpoint attr_get (name : string) (l : list (string * string)) : option string :=
  match l with
  | [] => None
  | (n, v) :: r => if String.eqb n name then Some v else attr_get name r
  end.

(** The simple selectors of the code: [[name="value"]], [[name]] and
    [.class] (class tokens separated by spaces). *)
Inductive simple_sel :=
  | AttrEq (name value : string)
  | HasAttr (name : string)
  | ClassSel (c : string).

(** A compound selector, optionally followed by a descendant type selector
    ([... span], [... mark]). *)
Record selector := mk_sel { compound : list simple_sel; descendant : option string }.

Definition simple_matches (l : list (string * string)) (s : simple_sel) : bool :=
  match s with
  | AttrEq n v => match attr_get n l with Some w => String.eqb w v | None => false end
  | HasAttr n => match attr_get n l with Some _ => true | None => false end
  | ClassSel c =>
      match attr_get "class" l with
      | Some v => existsb (String.eqb c) (split_on " "%char v)
      | None => false
      end
  end.

Definition compound_matches (l : list (string * string)) (cs : list simple_sel) : bool :=
  forallb (simple_matches l) cs.

Definition matches (sel : selector) (e : element) : bool :=
  match descendant sel with
  | None => compound_matches (attrs e) (compound sel)
  | Some t => String.eqb (tag e) t && existsb (fun a => compound_matches a (compound sel)) (ancestors e)
  end.

(** ** The cart of [/cart.js] and [theme:cart:change] *)

Record variant := mk_variant { compare_at_price : option Z }.   (** [null] is [None] *)

Record item := mk_item {
  key : string;
  variant_id : Z;
  final_price : Z;
  item_variant : option variant;
  original_price : Z;
  final_line_price : Z;
  quantity : Z
}.

Record cart := mk_cart {
  currency : option string;
  items : option (list item);
  total_price : Z
}.

(** [cart.currency || 'USD'] *)
Definition cart_currency (c : cart) : string :=
  match currency c with Some (String _ _ as cur) => cur | _ => "USD" end.

(** JavaScript's [>] with [null] read as [0]. *)
Definition js_null_gt (a : option Z) (b : Z) : bool :=
  Z.ltb b (match a with Some x => x | None => 0%Z end).

(** The selectors of lines 143-159, 172 and 173. *)
Definition item_price_sel (k : string) := mk_sel [AttrEq "data-item-price" k] None.
Definition wpd_price_sel (v : Z) (k : string) (t : string) :=
  mk_sel [AttrEq "data-wpd-cart-variant-id" (int_str v); AttrEq "data-wpd-cart-item" k] (Some t).
Definition compare_sel (k : string) := mk_sel [AttrEq "data-compare-price" k] None.
Definition original_sel (k : string) := mk_sel [AttrEq "data-original-price" k] None.
Definition line_total_sel (k : string) := mk_sel [AttrEq "data-line-total" k] None.
Definition wpd_line_sel (k : string) :=
  mk_sel [HasAttr "data-wpd-cart-line-price"; AttrEq "data-wpd-cart-item" k] None.
Definition cart_final_sel := mk_sel [HasAttr "data-cart-final"] None.
Definition wcp_total_sel := mk_sel [ClassSel "wcp-original-cart-total"] None.

(** The drawer state [applyPriceUpdates] changes: the elements, the
    quantity inputs by [data-update-cart] key, and the due times of the
    scheduled [window.wcpRefreshCartTotal()] calls. *)
Record drawer := mk_drawer {
  doc : list element;
  inputs : gmap string string;
  refreshes : list nat
}.

Section WithFormatter.

(** [new Intl.NumberFormat('en-US', {style: 'currency', currency}).format(cents / 100)] *)
Variable currency_format : string -> Z -> string.

(** [updatePrice] (lines 186-197): with no matching element, return before
    formatting; otherwise set the [textContent] of every match. *)
Definition update_price (sel : selector) (price : Z) (cur : string)
    (d : list element) : list element :=
  if existsb (matches sel) d then
    map (fun e => if matches sel e then set_text e (currency_format cur price) else e) d
  else d.

(** The body of [cart.items.forEach] (lines 139-169). *)
Definition apply_item (cur : string) (ls : lock_state)
    (st : list element * gmap string string) (it : item) : list element * gmap string string :=
  let '(d, ins) := st in
  let k := key it in
  let d := update_price (item_price_sel k) (final_price it) cur d in
  let d := update_price (wpd_price_sel (variant_id it) k "span") (final_price it) cur d in
  let d := update_price (wpd_price_sel (variant_id it) k "mark") (final_price it) cur d in
  let d := match item_variant it with
           | Some v => if js_null_gt (compare_at_price v) (final_price it)
                       then update_price (compare_sel k)
                              (match compare_at_price v with Some x => x | None => 0%Z end) cur d
                       else d
           | None => d
           end in
  let d := if Z.ltb (final_price it) (original_price it)
           then update_price (original_sel k) (original_price it) cur d else d in
  let d := update_price (line_total_sel k) (final_line_price it) cur d in
  let d := update_price (wpd_line_sel k) (final_line_price it) cur d in
  (d, update_qty ls ins k (quantity it)).

(** [applyPriceUpdates] (lines 132-181) at time [t]; [has_refresh] is
    [typeof window.wcpRefreshCartTotal === 'function']. [None] is the
    TypeError of [cart.items.forEach] when the cart has no items array. *)
Definition apply_price_updates (ls : lock_state) (has_refresh : bool) (t : nat)
    (c : cart) (st : drawer) : option drawer :=
  match items c with
  | None => None
  | Some its =>
      let cur := cart_currency c in
      let '(d, ins) := fold_left (apply_item cur ls) its (doc st, inputs st) in
      let d := update_price cart_final_sel (total_price c) cur d in
      let d := update_price wcp_total_sel (total_price c) cur d in
      Some (mk_drawer d ins (if has_refresh then refreshes st ++ [t + 100] else refreshes st))
  end.

(** ** The element-wise reference semantics *)

(** The [updatePrice] calls one item makes, in order, with their prices. *)
Definition item_writes (it : item) : list (selector * Z) :=
  let k := key it in
  [(item_price_sel k, final_price it);
   (wpd_price_sel (variant_id it) k "span", final_price it);
   (wpd_price_sel (variant_id it) k "mark", final_price it)] ++
  match item_variant it with
  | Some v => if js_null_gt (compare_at_price v) (final_price it)
              then [(compare_sel k, match compare_at_price v with Some x => x | None => 0%Z end)]
              else []
  | None => []
  end ++
  (if Z.ltb (final_price it) (original_price it) then [(original_sel k, original_price it)] else []) ++
  [(line_total_sel k, final_line_price it); (wpd_line_sel k, final_line_price it)].

Definition cart_writes (c : cart) (its : list item) : list (selector * Z) :=
  flat_map item_writes its ++ [(cart_final_sel, total_price c); (wcp_total_sel, total_price c)].

(** The price of the last write whose selector matches [e]. *)
Definition last_write (e : element) (ws : list (selector * Z)) : option Z :=
  fold_left (fun acc (w : selector * Z) => if matches w.1 e then Some w.2 else acc) ws None.

Definition shown (cur : string) (ws : list (selector * Z)) (e : element) : element :=
  match last_write e ws with Some p => set_text e (currency_format cur p) | None => e end.

(** The quantity writes alone. *)
Definition qty_writes (ls : lock_state) (its : list item) (ins : gmap string string) :=
  fold_left (fun ins it => update_qty ls ins (key it) (quantity it)) its ins.

(** ** Lemmas *)

Definition write_elem (cur : string) (e : element) (w : selector * Z) : element :=
  if matches w.1 e then set_text e (currency_format cur w.2) else e.

Definition run_writes (cur : string) (ws : list (selector * Z)) (d : list element) :=
  fold_left (fun d (w : selector * Z) => update_price w.1 w.2 cur d) ws d.

Lemma matches_set_text sel e t : matches sel (set_text e t) = matches sel e.
Proof. reflexivity. Qed.

Lemma update_price_map sel p cur d :
  update_price sel p cur d = map (fun e => write_elem cur e (sel, p)) d.
Proof.
  unfold update_price, write_elem; simpl. destruct (existsb (matches sel) d) eqn:E; [reflexivity|].
  symmetry. transitivity (map (fun x => x) d); [|apply map_id]. apply map_ext_in. intros e He.
  destruct (matches sel e) eqn:M; [|reflexivity].
  exfalso. assert (existsb (matches sel) d = true) by (apply existsb_exists; exists e; split; assumption). congruence.
Qed.

Lemma run_writes_map cur ws d :
  run_writes cur ws d = map (fun e => fold_left (write_elem cur) ws e) d.
Proof.
  unfold run_writes. revert d; induction ws as [|w ws IH]; intros d; simpl.
  - symmetry. apply map_id.
  - rewrite IH, update_price_map, map_map. destruct w. reflexivity.
Qed.

Lemma fold_write_elem_from cur ws e acc :
  fold_left (write_elem cur) ws
    (match acc with Some p => set_text e (currency_format cur p) | None => e end) =
  match fold_left (fun acc (w : selector * Z) => if matches w.1 e then Some w.2 else acc) ws acc with
  | Some p => set_text e (currency_format cur p) | None => e end.
Proof.
  revert acc; induction ws as [|[sel p] ws IH]; intros acc; simpl; [reflexivity|].
  rewrite <- IH. f_equal. unfold write_elem; simpl.
  destruct acc; rewrite ?matches_set_text; destruct (matches sel e); reflexivity.
Qed.

Lemma fold_write_elem cur ws e : fold_left (write_elem cur) ws e = shown cur ws e.
Proof. exact (fold_write_elem_from cur ws e None). Qed.

Lemma apply_item_split cur ls d ins it :
  apply_item cur ls (d, ins) it =
  (run_writes cur (item_writes it) d, update_qty ls ins (key it) (quantity it)).
Proof.
  unfold apply_item, item_writes, run_writes.
  destruct (item_variant it) as [v|]; [destruct (js_null_gt _ _)|];
    destruct (Z.ltb (final_price it) (original_price it)); reflexivity.
Qed.

Lemma fold_apply_item cur ls its d ins :
  fold_left (apply_item cur ls) its (d, ins) =
  (run_writes cur (flat_map item_writes its) d, qty_writes ls its ins).
Proof.
  unfold qty_writes. revert d ins; induction its as [|it its IH]; intros d ins; cbn [fold_left flat_map];
    [reflexivity|].
  rewrite apply_item_split, IH. unfold run_writes. rewrite fold_left_app. reflexivity.
Qed.

Lemma qty_writes_locked ls its ins k :
  k ∈ interacting ls -> qty_writes ls its ins !! k = ins !! k.
Proof.
  intros Hk. unfold qty_writes. revert ins; induction its as [|it its IH]; intros ins; [reflexivity|].
  simpl. rewrite IH. apply update_qty_guarded. now right.
Qed.

Lemma apply_price_updates_eq (ls : lock_state) (has_refresh : bool) (t : nat)
    (c : cart) (st : drawer) :
  apply_price_updates ls has_refresh t c st =
  match items c with
  | None => None
  | Some its =>
      Some (mk_drawer (map (shown (cart_currency c) (cart_writes c its)) (doc st))
              (qty_writes ls its (inputs st))
              (if has_refresh then refreshes st ++ [t + 100] else refreshes st))
  end.
Proof.
  unfold apply_price_updates. destruct (items c) as [its|]; [|reflexivity].
  rewrite fold_apply_item. cbv zeta. f_equal. f_equal.
  transitivity (run_writes (cart_currency c) (cart_writes c its) (doc st)).
  - unfold cart_writes, run_writes. rewrite fold_left_app. reflexivity.
  - rewrite run_writes_map. apply map_ext. intros e. apply fold_write_elem.
Qed.

(** C21. Refinement: [applyPriceUpdates] sets the text of every element to
    the price of the last [updatePrice] call whose selector matches it
    (items in order, then the two cart totals), leaves the other elements
    as they were, applies the quantity writes, and schedules one
    [wcpRefreshCartTotal] call 100 ms later when the function exists; a cart
    without an items array throws. *)
Theorem apply_price_updates_spec (ls : lock_state) (has_refresh : bool) (t : nat)
    (c : cart) (st : drawer) :
  apply_price_updates ls has_refresh t c st =
  match items c with
  | None => None
  | Some its =>
      Some (mk_drawer (map (shown (cart_currency c) (cart_writes c its)) (doc st))
              (qty_writes ls its (inputs st))
              (if has_refresh then refreshes st ++ [t + 100] else refreshes st))
  end.
Proof. apply apply_price_updates_eq. Qed.

Lemma last_write_from e ws acc :
  fold_left (fun acc (w : selector * Z) => if matches w.1 e then Some w.2 else acc) ws acc =
  match last_write e ws with Some p => Some p | None => acc end.
Proof.
  unfold last_write. revert acc; induction ws as [|w ws IH]; intros acc; simpl; [reflexivity|].
  rewrite IH, (IH (if matches w.1 e then Some w.2 else None)).
  destruct (fold_left _ ws None); [reflexivity|]. destruct (matches w.1 e); reflexivity.
Qed.

Lemma last_write_app e ws1 ws2 :
  last_write e (ws1 ++ ws2) =
  match last_write e ws2 with Some p => Some p | None => last_write e ws1 end.
Proof. unfold last_write at 1. rewrite fold_left_app. apply last_write_from. Qed.

Lemma last_write_set_text e t ws : last_write (set_text e t) ws = last_write e ws.
Proof. reflexivity. Qed.

Lemma shown_idem cur ws e : shown cur ws (shown cur ws e) = shown cur ws e.
Proof.
  unfold shown at 2. destruct (last_write e ws) as [p|] eqn:E; [|reflexivity].
  unfold shown. rewrite last_write_set_text, E. reflexivity.
Qed.

Lemma qty_writes_commute ls its ins k q :
  ~ In k (map key its) ->
  qty_writes ls its (update_qty ls ins k q) = update_qty ls (qty_writes ls its ins) k q.
Proof.
  unfold qty_writes. revert ins; induction its as [|it its IH]; intros ins Hk; simpl in *; [reflexivity|].
  rewrite update_qty_commute by (intros ?; subst; tauto). apply IH. tauto.
Qed.

Lemma qty_writes_idem ls its ins :
  List.NoDup (map key its) -> qty_writes ls its (qty_writes ls its ins) = qty_writes ls its ins.
Proof.
  revert ins; induction its as [|it its IH]; intros ins Hnd; [reflexivity|].
  simpl in Hnd. apply NoDup_cons_iff in Hnd as [Hk Hnd].
  change (qty_writes ls (it :: its) ?i) with (qty_writes ls its (update_qty ls i (key it) (quantity it))).
  change (qty_writes ls (it :: its) ins) with (qty_writes ls its (update_qty ls ins (key it) (quantity it))).
  rewrite (qty_writes_commute ls its ins) by exact Hk.
  rewrite (update_qty_idem ls (qty_writes ls its ins) (key it) (quantity it)).
  rewrite qty_writes_commute by exact Hk. rewrite IH by exact Hnd. reflexivity.
Qed.

(** C22. The footer total: after [applyPriceUpdates], every element that
    carries [data-cart-final] shows the cart's [total_price] in the cart's
    currency ([USD] when it has none), whatever the items wrote before. *)
Theorem cart_total_shown (ls : lock_state) (has_refresh : bool) (t : nat) (c : cart)
    (st st' : drawer) (i : nat) (e : element) :
  apply_price_updates ls has_refresh t c st = Some st' ->
  nth_error (doc st) i = Some e -> matches cart_final_sel e = true ->
  nth_error (doc st') i = Some (set_text e (currency_format (cart_currency c) (total_price c))).
Proof.
  rewrite apply_price_updates_eq. destruct (items c) as [its|]; [|discriminate].
  intros [= <-] He Hm. simpl. rewrite nth_error_map, He. simpl. f_equal.
  unfold shown, cart_writes. rewrite last_write_app. unfold last_write at 1. simpl.
  rewrite Hm. destruct (matches wcp_total_sel e); reflexivity.
Qed.

(** A leaf element with one attribute. *)
Definition leaf (tg a v t : string) : element := mk_elem tg [(a, v)] [] t.

Lemma last_write_line_item tg k t it :
  last_write (leaf tg "data-line-total" k t) (item_writes it) =
  if String.eqb k (key it) then Some (final_line_price it) else None.
Proof.
  unfold item_writes. destruct (item_variant it) as [v|]; [destruct (js_null_gt _ _)|];
    destruct (Z.ltb _ _); unfold last_write; cbn; destruct (String.eqb k (key it));
    simpl; rewrite ?andb_false_r; reflexivity.
Qed.

Lemma last_write_original_item tg k t it :
  last_write (leaf tg "data-original-price" k t) (item_writes it) =
  if Z.ltb (final_price it) (original_price it) && String.eqb k (key it)
  then Some (original_price it) else None.
Proof.
  unfold item_writes. destruct (item_variant it) as [v|]; [destruct (js_null_gt _ _)|];
    destruct (Z.ltb _ _); unfold last_write; cbn; destruct (String.eqb k (key it));
    simpl; rewrite ?andb_false_r; reflexivity.
Qed.

(** Items whose writes all miss [e] contribute nothing to its last write. *)
Lemma last_write_items_none e its :
  Forall (fun it => last_write e (item_writes it) = None) its ->
  last_write e (flat_map item_writes its) = None.
Proof.
  induction 1 as [|it its Hit _ IH]; [reflexivity|].
  cbn [flat_map]. rewrite last_write_app, IH. exact Hit.
Qed.

Lemma last_write_totals_leaf tg a v t c :
  a <> "data-cart-final" -> a <> "class" ->
  last_write (leaf tg a v t) [(cart_final_sel, total_price c); (wcp_total_sel, total_price c)] = None.
Proof.
  intros H1 H2. unfold last_write; cbn.
  rewrite (proj2 (String.eqb_neq a "data-cart-final") H1), (proj2 (String.eqb_neq a "class") H2).
  reflexivity.
Qed.

(** C23. The line total: after [applyPriceUpdates], a [data-line-total]
    element of key [k] shows the [final_line_price] of the last item with
    key [k], in the cart's currency. *)
Theorem line_total_shown (ls : lock_state) (has_refresh : bool) (t : nat) (c : cart)
    (st st' : drawer) (i : nat) (tg k txt : string) (pre post : list item) (it : item) :
  items c = Some (pre ++ it :: post)%list -> key it = k ->
  Forall (fun it' => key it' <> k) post ->
  apply_price_updates ls has_refresh t c st = Some st' ->
  nth_error (doc st) i = Some (leaf tg "data-line-total" k txt) ->
  nth_error (doc st') i =
    Some (leaf tg "data-line-total" k (currency_format (cart_currency c) (final_line_price it))).
Proof.
  intros Hits Hk Hpost. rewrite apply_price_updates_eq, Hits. intros [= <-] He.
  simpl. rewrite nth_error_map, He. simpl. f_equal. unfold shown, cart_writes.
  rewrite last_write_app, last_write_totals_leaf by discriminate.
  rewrite List.flat_map_app. cbn [flat_map]. rewrite !last_write_app.
  rewrite last_write_items_none.
  - rewrite last_write_line_item, Hk, String.eqb_refl. reflexivity.
  - eapply Forall_impl; [exact Hpost|]. intros it' Hne. rewrite last_write_line_item.
    destruct (String.eqb_spec k (key it')); [congruence | reflexivity].
Qed.

(** C24. The stale original price: when no item of key [k] is discounted
    any more ([final_price] not below [original_price]), a
    [data-original-price] element of key [k] keeps the text it had, so the
    drawer still shows the old struck-through price. *)
Theorem original_price_stale (ls : lock_state) (has_refresh : bool) (t : nat) (c : cart)
    (st st' : drawer) (i : nat) (tg k txt : string) (its : list item) :
  items c = Some its ->
  Forall (fun it => key it = k -> (original_price it <= final_price it)%Z) its ->
  apply_price_updates ls has_refresh t c st = Some st' ->
  nth_error (doc st) i = Some (leaf tg "data-original-price" k txt) ->
  nth_error (doc st') i = Some (leaf tg "data-original-price" k txt).
Proof.
  intros Hits Hno. rewrite apply_price_updates_eq, Hits. intros [= <-] He.
  simpl. rewrite nth_error_map, He. simpl. f_equal. unfold shown, cart_writes.
  rewrite last_write_app, last_write_totals_leaf by discriminate.
  rewrite last_write_items_none; [reflexivity|].
  eapply Forall_impl; [exact Hno|]. intros it Hle. rewrite last_write_original_item.
  destruct (String.eqb_spec k (key it)) as [->|]; [|now rewrite andb_false_r].
  rewrite (proj2 (Z.ltb_ge _ _) (Hle eq_refl)). reflexivity.
Qed.

(** C32. Idempotence: applying the same cart twice (a repeated
    [theme:cart:change], or the listeners registered twice after
    [shopify:section:load]) leaves the texts and the quantity inputs of
    applying it once, when the item keys are distinct. *)
Theorem apply_idempotent (ls : lock_state) (has_refresh : bool) (t1 t2 : nat) (c : cart)
    (its : list item) (st st1 st2 : drawer) :
  items c = Some its -> List.NoDup (map key its) ->
  apply_price_updates ls has_refresh t1 c st = Some st1 ->
  apply_price_updates ls has_refresh t2 c st1 = Some st2 ->
  doc st2 = doc st1 /\ inputs st2 = inputs st1.
Proof.
  intros Hits Hnd. rewrite !apply_price_updates_eq, Hits. intros [= <-] [= <-]. simpl.
  split.
  - rewrite map_map. apply map_ext. apply shown_idem.
  - apply qty_writes_idem. exact Hnd.
Qed.

End WithFormatter.

(** ** Witnesses *)

(** A sample formatter: the currency symbol for USD, then [toFixed(2)]. *)
Definition sample_format (cur : string) (c : Z) : string :=
  (if String.eqb cur "USD" then "$" else cur) ++ to_fixed_cents Prec2 c.

Definition sample_item : item := mk_item "k1" 7 1500 (Some (mk_variant None)) 1500 3000 2.
Definition sample_cart : cart := mk_cart None (Some [sample_item]) 3000.
Definition sample_drawer : drawer :=
  mk_drawer [leaf "span" "data-line-total" "k1" "$40.00";
             leaf "s" "data-original-price" "k1" "$20.00";
             leaf "div" "data-cart-final" "" "$40.00"] ∅ [].
Definition idle_lock : lock_state := mk_lock ∅ None 0 [].
Definition sample_after : drawer :=
  match apply_price_updates sample_format idle_lock false 0 sample_cart sample_drawer with
  | Some d => d
  | None => sample_drawer
  end.

Lemma sample_apply :
  apply_price_updates sample_format idle_lock false 0 sample_cart sample_drawer = Some sample_after.
Proof. vm_compute. reflexivity. Qed.

Lemma cart_total_shown_witness :
  apply_price_updates sample_format idle_lock false 0 sample_cart sample_drawer = Some sample_after /\
  nth_error (doc sample_drawer) 2 = Some (leaf "div" "data-cart-final" "" "$40.00") /\
  matches cart_final_sel (leaf "div" "data-cart-final" "" "$40.00") = true /\
  nth_error (doc sample_after) 2 = Some (leaf "div" "data-cart-final" "" "$30.00").
Proof.
  split; [exact sample_apply|]. split; [reflexivity|]. split; [reflexivity|].
  apply (cart_total_shown sample_format idle_lock false 0 sample_cart sample_drawer sample_after 2
           (leaf "div" "data-cart-final" "" "$40.00")); [exact sample_apply | reflexivity | reflexivity].
Defined.

Lemma line_total_shown_witness :
  items sample_cart = Some ([] ++ sample_item :: [])%list /\ key sample_item = "k1" /\
  nth_error (doc sample_drawer) 0 = Some (leaf "span" "data-line-total" "k1" "$40.00") /\
  nth_error (doc sample_after) 0 = Some (leaf "span" "data-line-total" "k1" "$30.00").
Proof.
  split; [reflexivity|]. split; [reflexivity|]. split; [reflexivity|].
  apply (line_total_shown sample_format idle_lock false 0 sample_cart sample_drawer sample_after 0
           "span" "k1" "$40.00" [] [] sample_item);
    [reflexivity | reflexivity | constructor | exact sample_apply | reflexivity].
Defined.

Lemma original_price_stale_witness :
  Forall (fun it => key it = "k1" -> (original_price it <= final_price it)%Z) [sample_item] /\
  nth_error (doc sample_after) 1 = Some (leaf "s" "data-original-price" "k1" "$20.00").
Proof.
  split; [constructor; [intros _; vm_compute; discriminate | constructor]|].
  apply (original_price_stale sample_format idle_lock false 0 sample_cart sample_drawer sample_after 1
           "s" "k1" "$20.00" [sample_item]);
    [reflexivity | constructor; [intros _; vm_compute; discriminate | constructor] |
     exact sample_apply | reflexivity].
Defined.

Definition sample_twice : drawer :=
  match apply_price_updates sample_format idle_lock false 100 sample_cart sample_after with
  | Some d => d
  | None => sample_after
  end.

Lemma apply_idempotent_witness :
  List.NoDup (map key [sample_item]) /\
  apply_price_updates sample_format idle_lock false 100 sample_cart sample_after = Some sample_twice /\
  doc sample_twice = doc sample_after /\ inputs sample_twice = inputs sample_after.
Proof.
  split; [constructor; [intros [] | constructor]|]. split; [vm_compute; reflexivity|].
  apply (apply_idempotent sample_format idle_lock false 0 100 sample_cart [sample_item]
           sample_drawer sample_after sample_twice);
    [reflexivity | constructor; [intros [] | constructor] | exact sample_apply | vm_compute; reflexivity].
Defined.

End DrawerPrices.
