(* ===== verification/WcpWait.v ===== *)
(** * Waiting for the wholesale pricing app (custom.js, waitForWCP)

    Module [WcpWait] models [WCP_CONFIG] (src/assets/custom.js lines
    75-79), [isWholesaleCustomer] (lines 103-107), the retry loop of
    [waitForWCP] (lines 112-127) and [updateCartDrawerPrices] (lines
    87-98). The value of [window.wcp_data] over time is the Section
    variable [wcp_data_at]; the loop is a function of the clock that
    returns the time its promise resolves. A cart update is scheduled at
    that time, or at once for a retail customer, and the pending updates
    run in the order of their due times. The theorems show that the loop
    always resolves, at the first poll that sees the app loaded (hence
    between 800 and 1800 ms after it starts); that retail updates and updates made
    after the app has loaded are applied in the order of the events; and
    that, on a wholesale page, an update made just before the app loads is
    applied after a newer one made before the next poll. The registration of the listeners by [initCartDrawerPriceUpdates]
    (lines 202-268) is a counter of their copies, which every
    [shopify:section:load] with the drawer increases. *)

From stdpp Require Import gmap strings.
From Stdlib Require Import String ZArith Lia.
From S2P Require Import Prelude JsRuntime DrawerLock DrawerPrices.
Open Scope string_scope.

Module WcpWait.
Import DrawerPrices.

Record wcp_config := mk_wcp_config { delay : nat; max_retries : nat; retry_interval : nat }.

(** [WCP_CONFIG] (lines 75-79). *)
Definition WCP_CONFIG : wcp_config := mk_wcp_config 800 5 200.

(** The values [window.wcp_data] takes: absent, [null], or an object. *)
Inductive js_value := Undefined | Null | Obj.

Definition truthy (v : js_value) : bool := match v with Obj => true | _ => false end.

(** [isWholesaleCustomer] (lines 103-107): the WPD checkout button is on
    the page, or [typeof window.wcp_data !== 'undefined']. *)
Definition is_wholesale_customer (has_checkout_btn : bool) (wcp_data : js_value) : bool :=
  has_checkout_btn || match wcp_data with Undefined => false | _ => true end.

Section WithWindow.

(** [window.wcp_data] at each millisecond. *)
Variable wcp_data_at : nat -> js_value.

(** [checkWCP] (lines 116-123) at time [t] with [retries] done: resolve
    [delay] ms later when the app is loaded or the retries are used up,
    else poll again [retryInterval] ms later. The fuel bounds the polls;
    [wait_for_wcp] gives one more than [maxRetries], which the theorems
    show is enough. *)
Fixpoint check_wcp (fuel retries t : nat) : option nat :=
  match fuel with
  | O => None
  | S f =>
      if truthy (wcp_data_at t) || Nat.leb (max_retries WCP_CONFIG) retries
      then Some (t + delay WCP_CONFIG)
      else check_wcp f (S retries) (t + retry_interval WCP_CONFIG)
  end.

(** [waitForWCP()] called at [t]: the time its promise resolves. *)
Definition wait_for_wcp (t : nat) : option nat := check_wcp (S (max_retries WCP_CONFIG)) 0 t.

(** [updateCartDrawerPrices] (lines 87-98) at [t]: no update for a missing
    cart or a cart without items; otherwise the time [applyPriceUpdates]
    runs with the cart, after [waitForWCP] for a wholesale customer. *)
Definition update_cart_drawer_prices (has_checkout_btn : bool) (t : nat) (c : option cart)
    : option (nat * cart) :=
  match c with
  | None => None
  | Some c' =>
      match items c' with
      | None => None
      | Some _ =>
          if is_wholesale_customer has_checkout_btn (wcp_data_at t)
          then match wait_for_wcp t with Some r => Some (r, c') | None => None end
          else Some (t, c')
      end
  end.

(** The updates scheduled by a sequence of cart events ([theme:cart:change]
    with [event.detail.cart], or the [/cart.js] response after
    [theme:drawer:open]), each with its time. *)
Definition schedule (has_checkout_btn : bool) (evs : list (nat * option cart)) : list (nat * cart) :=
  flat_map (fun '(t, c) =>
              match update_cart_drawer_prices has_checkout_btn t c with
              | Some u => [u]
              | None => []
              end) evs.

End WithWindow.

(** The cart applied last: pending updates run by due time, and in the
    order they were scheduled when due at the same time. *)
Definition last_applied (l : list (nat * cart)) : option (nat * cart) :=
  fold_left (fun acc (u : nat * cart) =>
               match acc with
               | Some (d, _) => if Nat.leb d u.1 then Some u else acc
               | None => Some u
               end) l None.

(** ** Registration of the listeners *)

(** How many times the document-level listeners of
    [initCartDrawerPriceUpdates] (focusin, focusout, input and
    [theme:cart:change], lines 204-237) are registered. *)
Record listeners := mk_listeners { doc_listeners : nat }.

(** [initCartDrawerPriceUpdates] (lines 202-254) adds one more copy of
    each document-level listener; [addEventListener] does not merge them
    because each call passes a new function. *)
Definition init_cart_drawer_price_updates (l : listeners) : listeners :=
  mk_listeners (S (doc_listeners l)).

(** Lines 257-261: the updater is initialised once, at once or on
    [DOMContentLoaded]. *)
Definition initialize (l : listeners) : listeners := init_cart_drawer_price_updates l.

(** [shopify:section:load] (lines 264-268): initialise again when the
    loaded section contains the cart drawer. *)
Definition section_load (section_has_drawer : bool) (l : listeners) : listeners :=
  if section_has_drawer then init_cart_drawer_price_updates l else l.

(** A [theme:cart:change] at [t] runs every registered copy of the
    listener, each calling [updateCartDrawerPrices] with the cart. *)
Definition cart_change_updates (w : nat -> js_value) (has_btn : bool) (l : listeners)
    (t : nat) (c : option cart) : list (nat * cart) :=
  flat_map (fun _ : unit =>
              match update_cart_drawer_prices w has_btn t c with Some u => [u] | None => [] end)
           (repeat tt (doc_listeners l)).

(** ** Lemmas *)

Section Lemmas.

Variable wcp_data_at : nat -> js_value.

Lemma check_wcp_S f r t :
  check_wcp wcp_data_at (S f) r t =
  if truthy (wcp_data_at t) || Nat.leb 5 r then Some (t + 800)
  else check_wcp wcp_data_at f (S r) (t + 200).
Proof. reflexivity. Qed.

(** The loop from [retries] with [n] retries left resolves [delay] ms
    after the first poll that sees the app, or after the last poll. *)
Lemma check_wcp_spec n : forall r t, r + n = max_retries WCP_CONFIG ->
  exists i, i <= n /\
    check_wcp wcp_data_at (S n) r t = Some (t + 200 * i + 800) /\
    (forall j, j < i -> truthy (wcp_data_at (t + 200 * j)) = false) /\
    (r + i < 5 -> truthy (wcp_data_at (t + 200 * i)) = true).
Proof.
  induction n as [|n IH]; intros r t Hr; simpl in Hr.
  - exists 0. rewrite check_wcp_S, (proj2 (Nat.leb_le 5 r)) by lia. rewrite orb_true_r.
    split; [lia|]. split; [f_equal; lia|]. split; [intros; lia | intros; lia].
  - rewrite check_wcp_S, (proj2 (Nat.leb_gt 5 r)) by lia. rewrite orb_false_r.
    destruct (truthy (wcp_data_at t)) eqn:Ht.
    + exists 0. split; [lia|]. split; [f_equal; lia|].
      split; [intros; lia | intros _; rewrite Nat.add_0_r; exact Ht].
    + destruct (IH (S r) (t + 200) ltac:(simpl; lia)) as (i & Hi & Hc & Hf & Hl).
      exists (S i). split; [lia|]. split; [rewrite Hc; f_equal; lia|]. split.
      * intros [|j] Hj; [rewrite Nat.add_0_r; exact Ht|].
        replace (t + 200 * S j) with (t + 200 + 200 * j) by lia. apply Hf. lia.
      * intros Hlt. replace (t + 200 * S i) with (t + 200 + 200 * i) by lia. apply Hl. lia.
Qed.

Lemma wait_for_wcp_loaded t :
  truthy (wcp_data_at t) = true -> wait_for_wcp wcp_data_at t = Some (t + 800).
Proof. intros H. unfold wait_for_wcp. simpl. rewrite H. reflexivity. Qed.

Lemma schedule_app has_btn evs1 evs2 :
  schedule wcp_data_at has_btn (evs1 ++ evs2) =
  (schedule wcp_data_at has_btn evs1 ++ schedule wcp_data_at has_btn evs2)%list.
Proof. unfold schedule. apply List.flat_map_app. Qed.

(** Every scheduled update is due no later than [D] when each event's
    update is. *)
Lemma schedule_due_le has_btn evs D :
  (forall t c u, In (t, c) evs -> update_cart_drawer_prices wcp_data_at has_btn t c = Some u -> u.1 <= D) ->
  forall u, In u (schedule wcp_data_at has_btn evs) -> u.1 <= D.
Proof.
  intros H u Hu. unfold schedule in Hu. apply in_flat_map in Hu as [[t c] [Hin Hu]].
  destruct (update_cart_drawer_prices wcp_data_at has_btn t c) as [u'|] eqn:E; [|destruct Hu].
  destruct Hu as [<-|[]]. exact (H t c u' Hin E).
Qed.

End Lemmas.

Lemma last_applied_from l : forall acc x,
  fold_left (fun acc (u : nat * cart) =>
               match acc with
               | Some (d, _) => if Nat.leb d u.1 then Some u else acc
               | None => Some u
               end) l acc = Some x -> In x l \/ acc = Some x.
Proof.
  induction l as [|u l IH]; intros acc x H; simpl in *; [now right|].
  apply IH in H as [H|H]; [tauto|].
  destruct acc as [[d c]|]; [destruct (Nat.leb d u.1)|]; injection H as <-; tauto.
Qed.

Lemma last_applied_in l x : last_applied l = Some x -> In x l.
Proof. intros H. apply last_applied_from in H as [H|H]; [exact H | discriminate]. Qed.

(** An update due no earlier than every other one runs last. *)
Lemma last_applied_snoc l u :
  (forall x, In x l -> x.1 <= u.1) -> last_applied (l ++ [u])%list = Some u.
Proof.
  intros H. unfold last_applied at 1. rewrite fold_left_app. simpl.
  fold (last_applied l). destruct (last_applied l) as [[d c]|] eqn:E; [|reflexivity].
  apply last_applied_in, H in E. simpl in E. now rewrite (proj2 (Nat.leb_le d u.1) E).
Qed.

Lemma update_retail w t c u :
  w t = Undefined -> update_cart_drawer_prices w false t c = Some u -> u.1 = t.
Proof.
  intros Hw. unfold update_cart_drawer_prices, is_wholesale_customer. rewrite Hw.
  destruct c as [c|]; [destruct (items c)|]; try discriminate. now intros [= <-].
Qed.

Lemma update_loaded w b t c u :
  truthy (w t) = true -> update_cart_drawer_prices w b t c = Some u -> u.1 = t + 800.
Proof.
  intros Hw. unfold update_cart_drawer_prices, is_wholesale_customer.
  rewrite (wait_for_wcp_loaded w t Hw).
  destruct (w t); try discriminate Hw. rewrite orb_true_r.
  destruct c as [c|]; [destruct (items c)|]; try discriminate. now intros [= <-].
Qed.

(** ** Theorems *)

(** C25. [waitForWCP] always resolves: at the first of the six polls
    (every 200 ms from the call) that sees [window.wcp_data] truthy, or at
    the sixth poll when none does, plus the 800 ms delay. *)
Theorem wait_for_wcp_spec (w : nat -> js_value) (t : nat) :
  exists i, i <= 5 /\
    wait_for_wcp w t = Some (t + 200 * i + 800) /\
    (forall j, j < i -> truthy (w (t + 200 * j)) = false) /\
    (i < 5 -> truthy (w (t + 200 * i)) = true).
Proof. exact (check_wcp_spec w 5 0 t eq_refl). Qed.

(** C26. Retail order: without the wholesale app, the cart of the latest
    event is the one applied last. *)
Theorem retail_in_order (w : nat -> js_value) (evs : list (nat * option cart))
    (t : nat) (c : cart) (its : list item) :
  (forall t', w t' = Undefined) -> items c = Some its ->
  (forall t' c', In (t', c') evs -> t' <= t) ->
  last_applied (schedule w false (evs ++ [(t, Some c)])%list) = Some (t, c).
Proof.
  intros Hw Hc Ht. rewrite schedule_app. unfold schedule at 2; simpl.
  rewrite Hw, Hc. simpl.
  apply last_applied_snoc. apply schedule_due_le. intros t' c' u Hin Hu.
  rewrite (update_retail w t' c' u (Hw t') Hu). exact (Ht t' c' Hin).
Qed.

(** C27. Order once the app has loaded: when [window.wcp_data] is already
    set at every event, each update waits exactly 800 ms, and the cart of
    the latest event is the one applied last. *)
Theorem loaded_in_order (w : nat -> js_value) (has_btn : bool) (evs : list (nat * option cart))
    (t : nat) (c : cart) (its : list item) :
  truthy (w t) = true -> items c = Some its ->
  (forall t' c', In (t', c') evs -> t' <= t /\ truthy (w t') = true) ->
  last_applied (schedule w has_btn (evs ++ [(t, Some c)])%list) = Some (t + 800, c).
Proof.
  intros Hw Hc Ht. rewrite schedule_app. unfold schedule at 2; simpl.
  rewrite Hc, (wait_for_wcp_loaded w t Hw). destruct (w t); try discriminate Hw.
  unfold is_wholesale_customer. rewrite orb_true_r. simpl.
  apply last_applied_snoc. apply schedule_due_le. intros t' c' u Hin Hu.
  destruct (Ht t' c' Hin) as [Hle Hl]. rewrite (update_loaded w has_btn t' c' u Hl Hu). simpl. lia.
Qed.

(** C28. Out-of-order updates: on a wholesale page, when the app is not
    loaded at a cart change at [t1] but is from just after it on, and a
    newer cart change comes at [t2] before the next poll at [t1 + 200], the
    older update resolves at [t1 + 1000], after the newer one at
    [t2 + 800]: the drawer ends with the older cart. *)
Theorem wholesale_out_of_order (w : nat -> js_value) (has_btn : bool) (t1 t2 : nat)
    (c1 c2 : cart) (its1 its2 : list item) :
  items c1 = Some its1 -> items c2 = Some its2 ->
  is_wholesale_customer has_btn (w t1) = true ->
  truthy (w t1) = false -> (forall t, t1 < t -> truthy (w t) = true) ->
  t1 < t2 < t1 + 200 ->
  last_applied (schedule w has_btn [(t1, Some c1); (t2, Some c2)]) = Some (t1 + 1000, c1).
Proof.
  intros H1 H2 Hw Hf Hl Ht.
  assert (W1 : wait_for_wcp w t1 = Some (t1 + 1000)).
  { unfold wait_for_wcp. rewrite check_wcp_S, Hf. change (max_retries WCP_CONFIG) with (S 4).
    cbn [orb Nat.leb]. rewrite check_wcp_S, (Hl (t1 + 200)) by lia. simpl. f_equal. lia. }
  assert (T2 : truthy (w t2) = true) by (apply Hl; lia).
  unfold schedule. cbn [flat_map]. unfold update_cart_drawer_prices at 1 2.
  rewrite H1, H2, Hw, W1, (wait_for_wcp_loaded w t2 T2).
  replace (is_wholesale_customer has_btn (w t2)) with true
    by (unfold is_wholesale_customer; destruct (w t2); [discriminate T2 | discriminate T2 |
        now rewrite orb_true_r]).
  unfold last_applied. simpl. rewrite (proj2 (Nat.leb_gt (t1 + 1000) (t2 + 800))) by lia.
  reflexivity.
Qed.

Lemma section_loads_count loads l :
  doc_listeners (fold_left (fun l b => section_load b l) loads l) =
  doc_listeners l + count_occ bool_dec loads true.
Proof.
  revert l; induction loads as [|[] loads IH]; intros l; simpl; rewrite ?IH; simpl; lia.
Qed.

Lemma cart_change_updates_repeat w b l t c u :
  update_cart_drawer_prices w b t c = Some u ->
  cart_change_updates w b l t c = repeat u (doc_listeners l).
Proof.
  intros H. unfold cart_change_updates. rewrite H.
  induction (doc_listeners l) as [|n IH]; simpl; [reflexivity|]. now rewrite IH.
Qed.

(** C29. Listeners accumulate: after the initial run and a sequence of
    [shopify:section:load] events, of which [k] load the cart drawer, one
    [theme:cart:change] schedules the same update [k + 1] times (and so
    [k + 1] calls of [applyPriceUpdates] and of [wcpRefreshCartTotal]). *)
Theorem listeners_accumulate (w : nat -> js_value) (has_btn : bool) (loads : list bool)
    (t : nat) (c : option cart) (u : nat * cart) :
  update_cart_drawer_prices w has_btn t c = Some u ->
  cart_change_updates w has_btn
    (fold_left (fun l b => section_load b l) loads (initialize (mk_listeners 0))) t c =
  repeat u (S (count_occ bool_dec loads true)).
Proof.
  intros H. rewrite (cart_change_updates_repeat _ _ _ _ _ u H), section_loads_count. reflexivity.
Qed.

(** ** Witnesses *)

Definition no_app : nat -> js_value := fun _ => Undefined.
Definition app_loaded : nat -> js_value := fun _ => Obj.
Definition cart_a : cart := mk_cart None (Some []) 1000.
Definition cart_b : cart := mk_cart None (Some []) 2000.

Lemma retail_in_order_witness :
  (forall t', no_app t' = Undefined) /\ items cart_b = Some [] /\
  last_applied (schedule no_app false [(0, Some cart_a); (100, Some cart_b)]) = Some (100, cart_b).
Proof.
  split; [intros; reflexivity|]. split; [reflexivity|].
  apply (retail_in_order no_app [(0, Some cart_a)] 100 cart_b []);
    [intros; reflexivity | reflexivity | intros t' c' [H|[]]; injection H as <- _; lia].
Defined.

Lemma loaded_in_order_witness :
  truthy (app_loaded 100) = true /\
  last_applied (schedule app_loaded true [(0, Some cart_a); (100, Some cart_b)]) = Some (900, cart_b).
Proof.
  split; [reflexivity|].
  apply (loaded_in_order app_loaded true [(0, Some cart_a)] 100 cart_b []);
    [reflexivity | reflexivity | intros t' c' [H|[]]; injection H as <- _; split; [lia | reflexivity]].
Defined.

Definition app_after_50 : nat -> js_value := fun t => if Nat.ltb 50 t then Obj else Undefined.

Lemma wholesale_out_of_order_witness :
  items cart_a = Some [] /\ items cart_b = Some [] /\
  is_wholesale_customer true (app_after_50 50) = true /\ truthy (app_after_50 50) = false /\
  (forall t, 50 < t -> truthy (app_after_50 t) = true) /\ 50 < 150 < 50 + 200 /\
  last_applied (schedule app_after_50 true [(50, Some cart_a); (150, Some cart_b)]) =
    Some (50 + 1000, cart_a).
Proof.
  assert (Hl : forall t, 50 < t -> truthy (app_after_50 t) = true).
  { intros t Ht. unfold app_after_50. now rewrite (proj2 (Nat.ltb_lt 50 t) Ht). }
  split; [reflexivity|]. split; [reflexivity|]. split; [reflexivity|]. split; [reflexivity|].
  split; [exact Hl|]. split; [lia|].
  apply (wholesale_out_of_order app_after_50 true 50 150 cart_a cart_b [] []);
    [reflexivity | reflexivity | reflexivity | reflexivity | exact Hl | lia].
Defined.

Lemma listeners_accumulate_witness :
  update_cart_drawer_prices no_app false 0 (Some cart_a) = Some (0, cart_a) /\
  cart_change_updates no_app false
    (fold_left (fun l b => section_load b l) [true; false; true] (initialize (mk_listeners 0))) 0
    (Some cart_a) = [(0, cart_a); (0, cart_a); (0, cart_a)].
Proof.
  split; [reflexivity|].
  apply (listeners_accumulate no_app false [true; false; true] 0 (Some cart_a) (0, cart_a)).
  reflexivity.
Defined.

End WcpWait.
