(* ===== verification/ThemeEvents.v ===== *)
(** * The example theme listeners of custom.js (first IIFE)

    Module [ThemeEvents] models the first IIFE of src/assets/custom.js
    (lines 12-68): seven listeners for the theme's custom events that only
    call [console.log]. A listener is a computation in ExtLib's writer
    monad over the error monad: [tell] appends to the console, [raise] is
    the TypeError thrown when [event.detail] is [null]. Each listener reads
    [event.detail] before it logs anything, so an error never follows a
    log and the writer loses nothing. The browser runs the listeners of
    one event independently: an error is reported and the next listener
    still runs. The theorem counts the console lines and the reported
    errors over any sequence of events. *)

From stdpp Require Import gmap strings.
From Stdlib Require Import String List Lia.
From ExtLib Require Import Structures.Monad Structures.MonadWriter Structures.MonadExc.
From ExtLib Require Import Data.Monads.WriterMonad Data.Monads.EitherMonad Data.List Data.PPair.
From S2P Require Import Prelude JsRuntime DrawerLock DrawerPrices.
Open Scope string_scope.

Module ThemeEvents.
Import DrawerPrices.

(** The events the listeners are registered for (lines 21, 35, 44, 51-53,
    56). The detail of a [CustomEvent] is [None] when it is [null]; a
    [theme:variant:change] carries its target container and, in its
    detail, the variant object if any (an opaque value, here its JSON). *)
Inductive theme_event :=
  | VariantChange (container : string) (detail : option (option string))
  | CartChange (detail : option (option cart))
  | CartInit
  | Scroll
  | ScrollUp
  | ScrollDown
  | Resize.

(** What [console.log] receives. *)
Inductive log_entry :=
  | LogText (s : string)
  | LogContainer (c : string)
  | LogVariant (v : string)
  | LogCart (c : cart)
  | LogEvent (e : theme_event).

Inductive js_error := TypeError.

(** A listener: writes to the console, may throw. *)
Abbreviation listener := (writerT (@Monoid_list_app log_entry) (sum js_error)).

Declare Scope listener_scope.
Local Notation "c1 ;;; c2" := (bind c1 (fun _ => c2)) (at level 62, right associativity) : listener_scope.
Local Open Scope listener_scope.

Definition console_log (e : log_entry) : listener unit := tell [e].

(** [event.detail] then [.variant] or [.cart]: a TypeError on [null]. *)
Definition read_detail {A} (d : option A) : listener A :=
  match d with Some x => ret x | None => raise TypeError end.

(** The listener of the event, as written at lines 21-56. *)
Definition handle (ev : theme_event) : listener unit :=
  match ev with
  | VariantChange container d =>
      bind (read_detail d) (fun variant =>
      match variant with
      | Some v =>
          console_log (LogText "Container ———————— ↓") ;;;
          console_log (LogContainer container) ;;;
          console_log (LogText "Variant —————————— ↓") ;;;
          console_log (LogVariant v)
      | None => ret tt
      end)
  | CartChange d =>
      bind (read_detail d) (fun c =>
      match c with
      | Some c => console_log (LogText "Cart ———————————— ↓") ;;; console_log (LogCart c)
      | None => ret tt
      end)
  | CartInit => console_log (LogText "theme:cart:init") ;;; console_log (LogEvent CartInit)
  | Scroll | ScrollUp | ScrollDown | Resize => console_log (LogEvent ev)
  end.

(** The console after a listener run, and the error it reported. *)
Definition run_listener (c : listener unit) : list log_entry * option js_error :=
  match runWriterT c with
  | inl e => ([], Some e)
  | inr p => (psnd p, None)
  end.

(** A sequence of events: the console accumulates, the errors are
    reported one by one and do not stop later events. *)
Fixpoint dispatch_all (evs : list theme_event) : list log_entry * list js_error :=
  match evs with
  | [] => ([], [])
  | ev :: rest =>
      let '(l, e) := run_listener (handle ev) in
      let '(l', es) := dispatch_all rest in
      ((l ++ l')%list, match e with Some x => x :: es | None => es end)
  end.

(** ** Reference counts *)

(** The events whose listener reads a [null] detail. *)
Definition detail_null (ev : theme_event) : bool :=
  match ev with
  | VariantChange _ None | CartChange None => true
  | _ => false
  end.

(** The number of [console.log] calls each listener makes. *)
Definition log_count (ev : theme_event) : nat :=
  match ev with
  | VariantChange _ (Some (Some _)) => 4
  | CartChange (Some (Some _)) => 2
  | CartInit => 2
  | Scroll | ScrollUp | ScrollDown | Resize => 1
  | _ => 0
  end.

(** ** Lemmas *)

Lemma run_listener_handle ev :
  length (run_listener (handle ev)).1 = log_count ev /\
  (run_listener (handle ev)).2 = if detail_null ev then Some TypeError else None.
Proof.
  destruct ev as [c [[v|]|]|[[ct|]|]| | | | |]; split; reflexivity.
Qed.

(** ** Theorems *)

(** C30. The console over a sequence of events: it receives four lines per
    variant change with a variant, two per cart change with a cart, two
    per [theme:cart:init] and one per scroll or resize event, and one error
    is reported per event with a [null] detail; errors do not stop later
    events. *)
Theorem dispatch_all_counts (evs : list theme_event) :
  length (dispatch_all evs).1 = list_sum (map log_count evs) /\
  length (dispatch_all evs).2 = length (filter detail_null evs).
Proof.
  induction evs as [|ev evs [IH1 IH2]]; [split; reflexivity|]. simpl.
  destruct (run_listener_handle ev) as [H1 H2].
  destruct (run_listener (handle ev)) as [l e]; destruct (dispatch_all evs) as [l' es].
  simpl in *. rewrite length_app, H1, IH1. split; [reflexivity|].
  subst e. destruct (detail_null ev); simpl; rewrite IH2; reflexivity.
Qed.

End ThemeEvents.
