(* ===== verification/DrawerSystem.v ===== *)
(** * The cart drawer as one timed system (custom.js, second IIFE)

    Module [DrawerSystem] composes the three parts of the drawer updater
    of src/assets/custom.js that the other files model one at a time: the
    [interactingInputs] lock of [DrawerLock] (lines 82 and 204-230), the
    updates [updateCartDrawerPrices] schedules through [waitForWCP]
    ([WcpWait], lines 87-127 and 233-237), and the writes of
    [applyPriceUpdates] ([DrawerPrices], lines 132-197). The state is the
    lock, the drawer and the queue of pending updates; the events are the
    user's focus, blur and typing, cart events and the passing of time.
    The passing of time is the browser's timer loop: the pending update due
    first runs next (in the order it was scheduled among updates due
    together), after the lock's own timers due no later, and the clock
    moves to its due time; [run_due_spec] shows that the loop runs
    exactly the updates due. The theorem shows that an input the user
    keeps editing holds exactly what they typed, whatever cart updates
    run. *)

From stdpp Require Import gmap strings.
From Stdlib Require Import String ZArith Lia.
From S2P Require Import Prelude JsRuntime DrawerLock DrawerPrices WcpWait.
Open Scope string_scope.

Module DrawerSystem.
Import DrawerLock DrawerPrices WcpWait.

(** The events of the drawer. [Type_in k v]: the user sets the value of the
    quantity input [k] to [v], which fires its [input] event. [CartEvent c]:
    a [theme:cart:change] with [event.detail.cart], or the [/cart.js]
    response after [theme:drawer:open]. *)
Inductive sys_event :=
  | Focus (k : option string)
  | Blur (k : option string)
  | Type_in (k : string) (v : string)
  | CartEvent (c : option cart)
  | Elapse (ms : nat).

Record system := mk_system {
  lock : lock_state;
  drawer_st : drawer;
  pending : list (nat * cart)   (** updates waiting for their due time *)
}.

(** The earliest due time of the queue. *)
Definition min_due (l : list (nat * cart)) : option nat :=
  fold_right (fun (u : nat * cart) acc =>
                match acc with Some m => Some (Nat.min u.1 m) | None => Some u.1 end) None l.

(** The first update of the queue due at [m], and the rest of the queue. *)
Fixpoint take_first_due (m : nat) (l : list (nat * cart)) : option ((nat * cart) * list (nat * cart)) :=
  match l with
  | [] => None
  | u :: r =>
      if Nat.eqb u.1 m then Some (u, r)
      else match take_first_due m r with Some (x, r') => Some (x, u :: r') | None => None end
  end.

Section WithEnv.

Variable currency_format : string -> Z -> string.
Variable wcp_data_at : nat -> js_value.
Variable has_btn : bool.       (** the WPD checkout button is on the page *)
Variable has_refresh : bool.   (** [window.wcpRefreshCartTotal] is a function *)
Variable regs : listeners.     (** copies of the drawer listeners *)

(** Move the lock's clock to [t], running its timers due by then. *)
Definition advance (ls : lock_state) (t : nat) : lock_state := step ls (Wait (t - now ls)).

(** Run the pending updates due by [target] in order, then move the clock
    to [target]. Each round removes one update, so [fuel] one more than
    the length of the queue is enough. *)
Fixpoint run_due (fuel target : nat) (s : system) : system :=
  match fuel with
  | O => s
  | S f =>
      match min_due (pending s) with
      | Some m =>
          if Nat.leb m target then
            match take_first_due m (pending s) with
            | Some ((d, c), rest) =>
                let ls := advance (lock s) d in
                let dr := match apply_price_updates currency_format ls has_refresh d c (drawer_st s) with
                          | Some dr => dr
                          | None => drawer_st s
                          end in
                run_due f target (mk_system ls dr rest)
            | None => s
            end
          else mk_system (advance (lock s) target) (drawer_st s) (pending s)
      | None => mk_system (advance (lock s) target) (drawer_st s) (pending s)
      end
  end.

Definition run_until (target : nat) (s : system) : system :=
  run_due (S (List.length (pending s))) target s.

(** Typing sets the value of an existing input. *)
Definition type_value (k v : string) (d : drawer) : drawer :=
  match inputs d !! k with
  | Some _ => mk_drawer (doc d) (<[k := v]> (inputs d)) (refreshes d)
  | None => d
  end.

Definition sys_step (s : system) (e : sys_event) : system :=
  match e with
  | Focus t => mk_system (step (lock s) (FocusIn t)) (drawer_st s) (pending s)
  | Blur t => mk_system (step (lock s) (FocusOut t)) (drawer_st s) (pending s)
  | Type_in k v =>
      mk_system (step (lock s) (InputEv (Some k))) (type_value k v (drawer_st s)) (pending s)
  | CartEvent c =>
      let t := now (lock s) in
      run_until t (mk_system (lock s) (drawer_st s)
                     (pending s ++ cart_change_updates wcp_data_at has_btn regs t c)%list)
  | Elapse ms => run_until (now (lock s) + ms) s
  end.

Definition sys_run (s : system) (evs : list sys_event) : system := fold_left sys_step evs s.

End WithEnv.

(** The value the user's typing gives input [k]. *)
Definition typed_value (k : string) (v : option string) (e : sys_event) : option string :=
  match e with
  | Type_in k' x => if String.eqb k' k then match v with Some _ => Some x | None => None end else v
  | _ => v
  end.

(** ** Lemmas on the queue *)

Lemma now_advance ls t : now (advance ls t) = Nat.max (now ls) t.
Proof. unfold advance. simpl. lia. Qed.

Lemma min_due_none l : min_due l = None -> l = [].
Proof. destruct l as [|u l]; simpl; [reflexivity|]. destruct (min_due l); discriminate. Qed.

Lemma min_due_some l m :
  min_due l = Some m -> (exists u, In u l /\ u.1 = m) /\ (forall u, In u l -> m <= u.1).
Proof.
  revert m; induction l as [|a l IH]; intros m; simpl; [discriminate|].
  destruct (min_due l) as [n|] eqn:E; intros [= <-].
  - destruct (IH n eq_refl) as [[u [Hu Hn]] Hall]. split.
    + destruct (Nat.le_ge_cases a.1 n).
      * exists a. split; [now left | lia].
      * exists u. split; [now right | lia].
    + intros x [<-|Hx]; [lia|]. specialize (Hall x Hx). lia.
  - apply min_due_none in E as ->. split; [exists a; split; [now left | reflexivity]|].
    intros x [<-|[]]. lia.
Qed.

Lemma take_first_due_some m l :
  (exists u, In u l /\ u.1 = m) ->
  exists u r, take_first_due m l = Some (u, r) /\ u.1 = m /\ List.length r < List.length l /\
    (forall P : nat * cart -> bool, P u = false -> List.filter P r = List.filter P l).
Proof.
  induction l as [|a l IH]; intros [u [Hu Hm]]; [destruct Hu|]. simpl.
  destruct (Nat.eqb_spec a.1 m) as [Ha|Ha].
  - exists a, l. split; [reflexivity|]. split; [exact Ha|]. split; [simpl; lia|].
    intros P HP. simpl. now rewrite HP.
  - destruct Hu as [<-|Hu]; [contradiction|].
    destruct (IH (ex_intro _ u (conj Hu Hm))) as (v & r & Ht & Hv & Hlen & Hf).
    rewrite Ht. exists v, (a :: r). split; [reflexivity|]. split; [exact Hv|].
    split; [simpl; lia|]. intros P HP. simpl. now rewrite Hf.
Qed.

Lemma filter_all_true (P : nat * cart -> bool) l :
  (forall x, In x l -> P x = true) -> List.filter P l = l.
Proof.
  induction l as [|a l IH]; intros H; simpl; [reflexivity|].
  rewrite (H a (or_introl eq_refl)), IH; [reflexivity|]. intros x Hx. apply H. now right.
Qed.

Section Loop.

Variable currency_format : string -> Z -> string.
Variable has_refresh : bool.

(** The timer loop removes exactly the updates due by [target] and moves
    the clock there. *)
Lemma run_due_spec fuel target s :
  List.length (pending s) < fuel ->
  pending (run_due currency_format has_refresh fuel target s) =
    List.filter (fun u => Nat.ltb target u.1) (pending s) /\
  now (lock (run_due currency_format has_refresh fuel target s)) = Nat.max (now (lock s)) target.
Proof.
  revert s; induction fuel as [|f IH]; intros s Hlen; [lia|]. simpl.
  destruct (min_due (pending s)) as [m|] eqn:Em.
  - destruct (min_due_some _ _ Em) as [Hex Hmin].
    destruct (Nat.leb_spec m target) as [Hle|Hgt].
    + destruct (take_first_due_some m (pending s) Hex) as ([d c] & rest & Ht & Hd & Hl & Hf).
      rewrite Ht. simpl in Hd. subst d. cbv zeta.
      match goal with |- context [run_due _ _ f target (mk_system ?a ?b rest)] =>
        destruct (IH (mk_system a b rest)) as [H1 H2]; [simpl; lia|] end.
      rewrite H1, H2. cbn [lock]. rewrite now_advance.
      split; [apply Hf; simpl; apply Nat.ltb_ge; exact Hle | lia].
    + cbn [lock pending]. rewrite now_advance. split; [|reflexivity]. symmetry. apply filter_all_true.
      intros x Hx. apply Nat.ltb_lt. specialize (Hmin x Hx). lia.
  - apply min_due_none in Em. cbn [lock pending]. rewrite now_advance, Em. split; reflexivity.
Qed.

(** Invariants of the lock and the drawer that survive the passing of time
    and every application of a cart survive the timer loop. *)
Lemma run_due_preserves (I : lock_state -> drawer -> Prop) fuel target s :
  (forall ls dr t, I ls dr -> I (advance ls t) dr) ->
  (forall ls dr t c dr', I ls dr ->
     apply_price_updates currency_format ls has_refresh t c dr = Some dr' -> I ls dr') ->
  I (lock s) (drawer_st s) ->
  I (lock (run_due currency_format has_refresh fuel target s))
    (drawer_st (run_due currency_format has_refresh fuel target s)).
Proof.
  intros Hadv Happ. revert s; induction fuel as [|f IH]; intros s Hs; [exact Hs|]. simpl.
  destruct (min_due (pending s)); [destruct (Nat.leb _ _)|]; [|simpl; now apply Hadv ..].
  destruct (take_first_due _ _) as [[[d c] rest]|]; [|exact Hs].
  apply IH. simpl. destruct (apply_price_updates _ _ _ _ _ _) eqn:E.
  - eapply Happ; [apply Hadv, Hs | exact E].
  - now apply Hadv.
Qed.

Lemma apply_keeps_locked ls t c dr dr' k :
  k ∈ interacting ls ->
  apply_price_updates currency_format ls has_refresh t c dr = Some dr' ->
  inputs dr' !! k = inputs dr !! k.
Proof.
  intros Hk. rewrite apply_price_updates_eq. destruct (items c); [|discriminate].
  intros [= <-]. simpl. now apply qty_writes_locked.
Qed.

End Loop.

Section Steps.

Variable currency_format : string -> Z -> string.
Variable wcp_data_at : nat -> js_value.
Variable has_btn has_refresh : bool.
Variable regs : listeners.

Abbreviation sys_step := (sys_step currency_format wcp_data_at has_btn has_refresh regs).
Abbreviation sys_run := (sys_run currency_format wcp_data_at has_btn has_refresh regs).

(** [k] is locked with no release pending. *)
Definition locked (k : string) (ls : lock_state) : Prop :=
  k ∈ interacting ls /\ (forall d, (d, k) ∉ timers ls).

Lemma locked_step k ls le : le <> FocusOut (Some k) -> locked k ls -> locked k (step ls le).
Proof. intros He [Hk Hno]. exact (step_keeps_lock ls le k Hk Hno He). Qed.

(** The timer loop keeps [k] locked and its input's value. *)
Lemma run_due_locked k fuel target s :
  locked k (lock s) ->
  locked k (lock (run_due currency_format has_refresh fuel target s)) /\
  inputs (drawer_st (run_due currency_format has_refresh fuel target s)) !! k =
    inputs (drawer_st s) !! k.
Proof.
  intros Hl. apply (run_due_preserves currency_format has_refresh
    (fun ls dr => locked k ls /\ inputs dr !! k = inputs (drawer_st s) !! k)).
  - intros ls dr t [H1 H2]. split; [|exact H2]. apply locked_step; [discriminate | exact H1].
  - intros ls dr t c dr' [H1 H2] Ha. split; [exact H1|].
    rewrite (apply_keeps_locked _ _ _ _ _ _ _ _ (proj1 H1) Ha). exact H2.
  - split; [exact Hl | reflexivity].
Qed.

Lemma sys_step_editing s e k :
  e <> Blur (Some k) -> locked k (lock s) ->
  locked k (lock (sys_step s e)) /\
  inputs (drawer_st (sys_step s e)) !! k = typed_value k (inputs (drawer_st s) !! k) e.
Proof.
  intros He Hl. destruct e as [t|t|k' v|c|ms]; unfold DrawerSystem.sys_step; cbn [lock drawer_st].
  - split; [apply locked_step; [discriminate | exact Hl] | reflexivity].
  - split; [|reflexivity]. apply locked_step; [congruence | exact Hl].
  - split; [apply locked_step; [discriminate | exact Hl]|].
    unfold type_value, typed_value. destruct (String.eqb_spec k' k) as [<-|Hne];
      destruct (inputs (drawer_st s) !! k') eqn:E; cbn [inputs]; rewrite ?E;
      [apply lookup_insert_eq | reflexivity | now apply lookup_insert_ne | reflexivity].
  - unfold run_until. apply run_due_locked. exact Hl.
  - unfold run_until. apply run_due_locked. exact Hl.
Qed.

(** C31. Editing safety of the composed drawer: while the user keeps a
    quantity input locked (focused or typed into, with no release
    pending) and does not blur it, its value is exactly what the user
    typed, whatever cart events, other inputs' events and waits occur. *)
Theorem editing_keeps_typed (s : system) (evs : list sys_event) (k : string) :
  k ∈ interacting (lock s) -> (forall d, (d, k) ∉ timers (lock s)) ->
  Forall (fun e => e <> Blur (Some k)) evs ->
  inputs (drawer_st (sys_run s evs)) !! k =
    fold_left (typed_value k) evs (inputs (drawer_st s) !! k).
Proof.
  intros Hk Hno Hall. assert (Hl : locked k (lock s)) by (split; assumption). clear Hk Hno.
  unfold DrawerSystem.sys_run. revert s Hl; induction Hall as [|e evs He _ IH]; intros s Hl;
    [reflexivity|].
  simpl. destruct (sys_step_editing s e k He Hl) as [Hl' Hv]. rewrite IH by exact Hl'.
  now rewrite Hv.
Qed.

End Steps.

(** ** Witnesses *)

Definition qty_drawer : drawer := mk_drawer (doc sample_drawer) (<["k1" := "2"]> ∅) [].

Definition editing_start : system :=
  mk_system (mk_lock {[ "k1" ]} (Some "k1") 0 []) qty_drawer [].

Lemma editing_keeps_typed_witness :
  Forall (fun e => e <> Blur (Some "k1"))
    [Type_in "k1" "5"; CartEvent (Some sample_cart); Elapse 1000] /\
  inputs (drawer_st (sys_run sample_format no_app false false (initialize (mk_listeners 0))
     editing_start [Type_in "k1" "5"; CartEvent (Some sample_cart); Elapse 1000])) !! "k1" = Some "5".
Proof.
  split; [repeat constructor; discriminate|].
  rewrite (editing_keeps_typed sample_format no_app false false (initialize (mk_listeners 0))
           editing_start [Type_in "k1" "5"; CartEvent (Some sample_cart); Elapse 1000] "k1");
    [vm_compute; reflexivity | apply (bool_decide_unpack _); vm_compute; reflexivity |
     intros d Hd; inversion Hd | repeat constructor; discriminate].
Defined.

End DrawerSystem.
